(** * file_renamer.py: a shallow embedding and its verified properties

    The development follows [src/file_renamer.py]:
    - [Text]      string helpers of the Python runtime ([str.split],
                  [str.rfind], [str.zfill], [str(int)]);
    - [PurePath]  the part of [pathlib.PurePosixPath] the program uses;
    - [FileSys]   the file system as a finite map from paths to nodes,
                  exceptions, and the interface to the Python runtime;
    - [Renamer]   [get_file_date], [generate_new_name], [collect_files],
                  [rename_files] and the report printed by [main];
    - [Posix], [Examples]  a concrete runtime and small directory trees
                  on which the program is run;
    - [Cli], [CliExamples]  [print_progress], [clear_progress], the loop
                  with its output and [main] from the parsed arguments on;
    - [Checked]   [generate_new_name] with the limits the interpreter
                  sets to [str], [str.zfill] and the length of a string;
    - [Argv]      [main] with [parse_args] in front;
    - [TextFacts], [PurePathFacts], [GeneratorFacts], [LoopFacts],
      [Properties]  the lemmas and the properties of the program;
    - [NumberFacts], [NameFacts], [GeneratorProperties], [RunFacts],
      [RunProperties], [CliProperties], [StuckCounter],
      [PaddingProperties], [ArgvProperties]  further properties of the
                  generator, the run and [main].

    Strings are byte strings (UTF-8): every operation of the program on
    them ([+], [rfind "."], splitting on [/], comparison) gives the same
    result on bytes as on code points. *)

From Stdlib Require Import ZArith Lia Ascii DecimalString DecimalPos DecimalZ.
From stdpp Require Import base decidable strings list gmap sorting.

Local Open Scope string_scope.
Local Open Scope list_scope.
Local Open Scope Z_scope.

(* ===================================================================== *)
(** ** Python string operations *)
(* ===================================================================== *)

Module Text.

Notation "s +:+ t" := (String.append s t) (at level 60, right associativity).

(** [c * n] for a one-character string [c]. *)
Fixpoint repeat_char (c : ascii) (n : nat) : string :=
  match n with
  | O => ""
  | S n' => String c (repeat_char c n')
  end.

(** [str(n)] for a Python [int]. *)
Definition str_of_int (n : Z) : string :=
  NilZero.string_of_int (Z.to_int n).

Definition is_sign (c : ascii) : bool :=
  bool_decide (c = "+"%char) || bool_decide (c = "-"%char).

(** [s.zfill(width)]: CPython pads on the left with ["0"] and, when the
    string starts with a sign, moves the sign in front of the zeros.  A
    string that is already [width] long or longer is returned as it is. *)
Definition zfill (s : string) (width : Z) : string :=
  if (width <=? Z.of_nat (String.length s))%Z then s
  else
    let fill := Z.to_nat (width - Z.of_nat (String.length s)) in
    match s with
    | String c rest =>
        if is_sign c then String c (repeat_char "0" fill +:+ rest)
        else repeat_char "0" fill +:+ s
    | EmptyString => repeat_char "0" fill
    end.

(** Plain left padding, the reading of "left-padded with 0 to the width". *)
Definition lpad (c : ascii) (s : string) (width : Z) : string :=
  repeat_char c (Z.to_nat (width - Z.of_nat (String.length s))) +:+ s.

(** [s.split(sep)] for a one-character separator. *)
Fixpoint split_on (sep : ascii) (s : string) : list string :=
  match s with
  | EmptyString => [""]
  | String a s' =>
      if decide (a = sep) then "" :: split_on sep s'
      else match split_on sep s' with
           | h :: t => String a h :: t
           | [] => [String a ""]
           end
  end.

(** [sep in s]. *)
Fixpoint contains_char (sep : ascii) (s : string) : bool :=
  match s with
  | EmptyString => false
  | String a s' => bool_decide (a = sep) || contains_char sep s'
  end.

(** [s.rfind(c)], [None] standing for [-1]. *)
Fixpoint rfind (c : ascii) (s : string) : option nat :=
  match s with
  | EmptyString => None
  | String a s' =>
      match rfind c s' with
      | Some i => Some (S i)
      | None => if decide (a = c) then Some O else None
      end
  end.

(** [s[:i]] and [s[i:]]. *)
Fixpoint take_str (i : nat) (s : string) : string :=
  match i, s with
  | S i', String a s' => String a (take_str i' s')
  | _, _ => ""
  end.

Fixpoint drop_str (i : nat) (s : string) : string :=
  match i, s with
  | S i', String _ s' => drop_str i' s'
  | _, _ => s
  end.

(** [sep.join(l)]. *)
Fixpoint join (sep : string) (l : list string) : string :=
  match l with
  | [] => ""
  | [x] => x
  | x :: l' => x +:+ sep +:+ join sep l'
  end.

(** [s.startswith(p)]. *)
Fixpoint startswith (p s : string) : bool :=
  match p, s with
  | EmptyString, _ => true
  | String a p', String b s' => bool_decide (a = b) && startswith p' s'
  | String _ _, EmptyString => false
  end.

(** [l[len(pre):]] when [l] starts with [pre]. *)
Fixpoint strip_prefix (pre l : list string) : option (list string) :=
  match pre, l with
  | [], _ => Some l
  | a :: pre', b :: l' => if decide (a = b) then strip_prefix pre' l' else None
  | _ :: _, [] => None
  end.

(** Python's order on lists of strings: the first position where the two
    lists differ decides, a proper prefix is smaller. *)
Fixpoint list_leb (l1 l2 : list string) : bool :=
  match l1, l2 with
  | [], _ => true
  | _ :: _, [] => false
  | a :: l1', b :: l2' =>
      if decide (a = b) then list_leb l1' l2' else String.leb a b
  end.

End Text.

(* ===================================================================== *)
(** ** pathlib.PurePosixPath *)
(* ===================================================================== *)

Module PurePath.
Import Text.

(** A parsed path: the root (the empty string, ["/"] or ["//"]) and the
    components after it. *)
Record Path : Type := mkPath { root : string; parts : list string }.

#[global] Instance Path_eq_dec : EqDecision Path.
Proof. solve_decision. Defined.

#[global] Instance Path_countable : Countable Path.
Proof.
  apply (inj_countable' (fun p => (root p, parts p))
                        (fun x => mkPath (fst x) (snd x))).
  by intros [].
Defined.

(** The components [pathlib] keeps: empty ones and ["."] are dropped. *)
Definition keep_part (x : string) : bool :=
  negb (bool_decide (x = "")) && negb (bool_decide (x = ".")).

Definition components (s : string) : list string :=
  filter (fun x => keep_part x = true) (split_on "/" s).

(** [posixpath.splitroot]: exactly two leading slashes give the root
    ["//"], one or more than two give ["/"]. *)
Definition root_of (s : string) : string :=
  match s with
  | String "/" (String "/" (String "/" _)) => "/"
  | String "/" (String "/" _) => "//"
  | String "/" _ => "/"
  | _ => ""
  end.

(** [PurePosixPath(s)]. *)
Definition of_string (s : string) : Path :=
  mkPath (root_of s) (components s).

(** [str(p)]. *)
Definition to_string (p : Path) : string :=
  match root p, parts p with
  | "", [] => "."
  | r, l => r +:+ join "/" l
  end.

(** [p / s]: an absolute right operand replaces the left one. *)
Definition joinpath (p : Path) (s : string) : Path :=
  let q := of_string s in
  if decide (root q = "") then mkPath (root p) (parts p ++ parts q)
  else q.

(** [p.parent]; a path without components is its own parent. *)
Definition parent (p : Path) : Path :=
  mkPath (root p) (removelast (parts p)).

(** [p.name]. *)
Definition name (p : Path) : string := List.last (parts p) "".

(** [p.suffix] and [p.stem]: the name is cut at its last dot unless that
    dot is the first or the last character. *)
Definition cut_point (nm : string) : option nat :=
  match rfind "." nm with
  | Some i =>
      if (0 <? i)%nat && (i <? String.length nm - 1)%nat then Some i
      else None
  | None => None
  end.

Definition suffix (p : Path) : string :=
  match cut_point (name p) with
  | Some i => drop_str i (name p)
  | None => ""
  end.

Definition stem (p : Path) : string :=
  match cut_point (name p) with
  | Some i => take_str i (name p)
  | None => name p
  end.

(** A component as the parser produces them. *)
Definition is_part (x : string) : bool :=
  keep_part x && negb (contains_char "/" x).

Definition wf_path (p : Path) : Prop :=
  (root p = "" \/ root p = "/" \/ root p = "//") /\
  Forall (fun x => is_part x = true) (parts p).

(** The sort key of a path, [str(p).split("/")]: Python orders paths by
    the list of their components, each compared as a string. *)
Definition sort_key (p : Path) : list string := split_on "/" (to_string p).

Definition path_le (p q : Path) : Prop :=
  list_leb (sort_key p) (sort_key q) = true.

#[global] Instance path_le_dec : RelDecision path_le.
Proof. intros p q. unfold path_le. apply _. Defined.

(** Order of the full path strings, for comparison with [path_le]. *)
Definition str_le (p q : Path) : Prop :=
  String.leb (to_string p) (to_string q) = true.

#[global] Instance str_le_dec : RelDecision str_le.
Proof. intros p q. unfold str_le. apply _. Defined.

End PurePath.

(* ===================================================================== *)
(** ** The file system *)
(* ===================================================================== *)

Module FileSys.
Import PurePath.

(** The scope of this model: a tree the process may read and search, so
    that [os.stat] and [os.rename] fail for a missing path or a parent
    that is no directory and for nothing else (no [PermissionError]);
    timestamps [datetime.fromtimestamp] accepts; paths without [..] that
    name their entry directly; and symbolic links whose targets a run
    does not rename.  The limits of [str] and [str.zfill] are the subject
    of [Checked], the command line the subject of [Argv]. *)

Inductive exn : Type :=
  | ReError              (* re.error: bad pattern or bad replacement *)
  | ValueError           (* pathlib: unacceptable glob pattern;
                            str: an int with too many digits *)
  | FileNotFoundError    (* os.stat or os.rename on a missing path *)
  | NotADirectoryError   (* os.rename into something that is no directory *)
  | OverflowError        (* str.zfill: a width outside the C Py_ssize_t *)
  | MemoryError.         (* a string too long to allocate *)

Inductive Result (A : Type) : Type :=
  | Ok (a : A)
  | Raise (e : exn).
Arguments Ok {A} a.
Arguments Raise {A} e.

Definition bind {A B : Type} (m : Result A) (k : A -> Result B) : Result B :=
  match m with
  | Ok a => k a
  | Raise e => Raise e
  end.

Notation "'try' x <- m 'in' k" := (bind m (fun x => k))
  (at level 10, x name, m at level 100, k at level 200).

(** The value of a computation that did not raise. *)
Definition from_Ok {A : Type} (default : A) (m : Result A) : A :=
  match m with
  | Ok a => a
  | Raise _ => default
  end.

Inductive FileType : Type := Regular | Directory.

#[global] Instance FileType_eq_dec : EqDecision FileType.
Proof. solve_decision. Defined.

#[global] Instance exn_eq_dec : EqDecision exn.
Proof. solve_decision. Defined.

(** The fields of [os.stat_result] the program reads; [st_birthtime] is
    present on some platforms only ([hasattr]).  Timestamps are seconds
    since the epoch. *)
Record Stat : Type := mkStat {
  st_mtime : Z;
  st_birthtime : option Z;
  st_ctime : Z
}.

(** A directory entry.  A symbolic link carries what following it gives,
    [None] for a dangling link; link targets are taken to lie outside the
    files a run renames. *)
Inductive Node : Type :=
  | Entry (t : FileType) (st : Stat)
  | Symlink (target : option (FileType * Stat)).

Definition follow (n : Node) : option (FileType * Stat) :=
  match n with
  | Entry t st => Some (t, st)
  | Symlink target => target
  end.

(** [os.stat(p)], following links. *)
Definition stat (fs : gmap Path Node) (p : Path) : Result Stat :=
  match fs !! p with
  | Some n =>
      match follow n with
      | Some (_, st) => Ok st
      | None => Raise FileNotFoundError
      end
  | None => Raise FileNotFoundError
  end.

Definition file_type (fs : gmap Path Node) (p : Path) : option FileType :=
  match fs !! p with
  | Some n => fst <$> follow n
  | None => None
  end.

(** [p.exists()], [p.is_file()], [p.is_dir()]: all three follow links. *)
Definition path_exists (fs : gmap Path Node) (p : Path) : bool :=
  bool_decide (is_Some (file_type fs p)).

Definition is_file (fs : gmap Path Node) (p : Path) : bool :=
  bool_decide (file_type fs p = Some Regular).

Definition is_dir (fs : gmap Path Node) (p : Path) : bool :=
  bool_decide (file_type fs p = Some Directory).

(** [src.rename(dst)] for a source that is not a directory, which is all
    the program renames: the entry moves to [dst], replacing whatever
    entry [dst] held.  The directory of [dst] has to exist. *)
Definition rename (fs : gmap Path Node) (src dst : Path)
  : Result (gmap Path Node) :=
  match fs !! src with
  | None => Raise FileNotFoundError
  | Some n =>
      if is_dir fs (parent dst) then Ok (<[dst := n]> (delete src fs))
      else if path_exists fs (parent dst) then Raise NotADirectoryError
      else Raise FileNotFoundError
  end.

(** What the program takes from the Python runtime and does not define
    itself. *)
Class Runtime : Type := {
  (** [re.sub(pattern, repl, string)], every match replaced *)
  re_sub : string -> string -> string -> Result string;
  (** [datetime.fromtimestamp(t).strftime("%Y%m%d")] *)
  strftime_Ymd : Z -> string;
  (** [datetime.now().timestamp()] *)
  now : Z;
  (** [list(root.rglob(pattern))] and [list(root.glob(pattern))], in the
      order the operating system lists the entries *)
  rglob : gmap Path Node -> Path -> string -> Result (list Path);
  glob : gmap Path Node -> Path -> string -> Result (list Path)
}.

End FileSys.

(* ===================================================================== *)
(** ** file_renamer.py *)
(* ===================================================================== *)

Module Renamer.
Import Text PurePath FileSys.

Section Program.
Context `{RT : Runtime}.

(** [get_file_date(file_path, date_type)] *)
Definition get_file_date (fs : gmap Path Node) (file_path : Path)
    (date_type : string) : Result string :=
  try timestamp <-
    (if decide (date_type = "modified") then
       try st <- stat fs file_path in Ok (st_mtime st)
     else if decide (date_type = "created") then
       try stat_info <- stat fs file_path in
       match st_birthtime stat_info with
       | Some birth => Ok birth
       | None => Ok (st_ctime stat_info)
       end
     else Ok now) in
  Ok (strftime_Ymd timestamp).

(** [generate_new_name(file_path, prefix, suffix, search, replace, number,
    number_mode, number_padding, date_type, date_position)] *)
Definition generate_new_name (fs : gmap Path Node) (file_path : Path)
    (prefix suffix : string) (search replace : option string)
    (number : option Z) (number_mode : string) (number_padding : Z)
    (date_type : option string) (date_position : string) : Result string :=
  let stem0 := stem file_path in
  let ext := PurePath.suffix file_path in
  try stem1 <-
    match search, replace with
    | Some pat, Some repl => re_sub pat repl stem0
    | _, _ => Ok stem0
    end in
  let stem2 := if decide (prefix = "") then stem1 else prefix +:+ stem1 in
  let stem3 := if decide (suffix = "") then stem2 else stem2 +:+ suffix in
  let stem4 :=
    match number with
    | Some n =>
        let num_str := zfill (str_of_int n) number_padding in
        if decide (number_mode = "sequential") then num_str
        else stem3 +:+ "_" +:+ num_str
    | None => stem3
    end in
  try stem5 <-
    match date_type with
    | Some dt =>
        if decide (dt = "") then Ok stem4
        else
          try date_str <- get_file_date fs file_path dt in
          if decide (date_position = "prefix")
          then Ok (date_str +:+ "_" +:+ stem4)
          else Ok (stem4 +:+ "_" +:+ date_str)
    | None => Ok stem4
    end in
  Ok (stem5 +:+ ext).

(** [collect_files(root_path, pattern, recursive)]; [sorted] on paths is
    the sort by [path_le]. *)
Definition collect_files (fs : gmap Path Node) (root_path : Path)
    (pattern : string) (recursive : bool) : Result (list Path) :=
  try files <- (if recursive then rglob fs root_path pattern
            else glob fs root_path pattern) in
  Ok (merge_sort path_le (filter (fun f => is_file fs f = true) files)).

(** The keyword arguments of [rename_files] that stay fixed over a run. *)
Record Rule : Type := mkRule {
  prefix : string;
  suffix : string;
  search : option string;
  replace : option string;
  numbering : bool;
  number_mode : string;
  number_start : Z;
  number_padding : Z;
  date_type : option string;
  date_position : string;
  file_pattern : string;
  recursive : bool
}.

(** The variables of [rename_files] its loop updates, with the file
    system. *)
Record LoopState : Type := mkState {
  disk : gmap Path Node;
  renames : list (Path * Path);
  counter : Z;
  warnings : list string
}.

Definition advance (r : Rule) (st : LoopState) : LoopState :=
  if numbering r
  then mkState (disk st) (renames st) (counter st + 1) (warnings st)
  else st.

(** The name and the path the loop computes for [file_path] when the
    counter is [c]. *)
Definition new_name_at (r : Rule) (fs : gmap Path Node) (c : Z)
    (file_path : Path) : Result string :=
  let number := if numbering r then Some c else None in
  generate_new_name fs file_path (prefix r) (suffix r) (search r) (replace r)
    number (number_mode r) (number_padding r) (date_type r) (date_position r).

Definition warning_text (file_path : Path) (new_name : string) : string :=
  "Skipping " +:+ name file_path +:+ " - target exists: " +:+ new_name.

(** One iteration of the [for] loop of [rename_files]. *)
Definition loop_body (r : Rule) (execute : bool) (st : LoopState)
    (file_path : Path) : Result LoopState :=
  try new_name <- new_name_at r (disk st) (counter st) file_path in
  let new_path := joinpath (parent file_path) new_name in
  if decide (new_path <> file_path) then
    let st1 := mkState (disk st) (renames st ++ [(file_path, new_path)])
                       (counter st) (warnings st) in
    if execute then
      if path_exists (disk st) new_path && bool_decide (new_path <> file_path)
      then
        (* continue *)
        Ok (mkState (disk st1) (renames st1) (counter st1)
                    (warnings st1 ++ [warning_text file_path new_name]))
      else
        try fs' <- rename (disk st) file_path new_path in
        Ok (advance r (mkState fs' (renames st1) (counter st1) (warnings st1)))
    else Ok (advance r st1)
  else Ok (advance r st).

Fixpoint run_loop (r : Rule) (execute : bool) (st : LoopState)
    (files : list Path) : Result LoopState :=
  match files with
  | [] => Ok st
  | file_path :: rest =>
      try st' <- loop_body r execute st file_path in
      run_loop r execute st' rest
  end.

Definition initial_state (r : Rule) (fs : gmap Path Node) : LoopState :=
  mkState fs [] (number_start r) [].

(** [rename_files] with everything it leaves behind: the file system, the
    list it returns, the counter and the warnings it prints. *)
Definition rename_files_run (fs : gmap Path Node) (root_path : Path)
    (r : Rule) (execute : bool) : Result LoopState :=
  try files <- collect_files fs root_path (file_pattern r) (recursive r) in
  run_loop r execute (initial_state r fs) files.

(** [rename_files(root_path, ..., execute)], the returned list. *)
Definition rename_files (fs : gmap Path Node) (root_path : Path)
    (r : Rule) (execute : bool) : Result (list (Path * Path)) :=
  try st <- rename_files_run fs root_path r execute in
  Ok (renames st).

(** [old_path.relative_to(root_path)], falling back to [old_path] on
    [ValueError] as [main] does. *)
Definition relative_to_or_self (old_path root_path : Path) : Path :=
  if decide (root old_path = root root_path) then
    match strip_prefix (parts root_path) (parts old_path) with
    | Some rel => mkPath "" rel
    | None => old_path
    end
  else old_path.

Definition newline : string := String (ascii_of_nat 10) "".

(** The lines [main] prints once [rename_files] has returned, one string
    for each call of [print]. *)
Definition report (root_path : Path) (execute : bool)
    (renamed : list (Path * Path)) : list string :=
  match renamed with
  | [] => ["No files to rename."]
  | _ =>
      let mode := if execute then "RENAMED"
                  else "PREVIEW (use --execute to apply)" in
      [newline +:+ mode; repeat_char "=" 60]
      ++ concat (map (fun e : Path * Path =>
                        [to_string (relative_to_or_self (fst e) root_path);
                         "  -> " +:+ name (snd e);
                         ""]) renamed)
      ++ ["Total: " +:+ str_of_int (Z.of_nat (length renamed)) +:+ " file(s)"]
      ++ (if execute then []
          else [newline +:+
                "This was a dry-run. Add --execute to perform the actual rename."])
  end.

End Program.

(** The transformation order as the specification words it, for
    comparison with [generate_new_name]. *)
Section SpecPipeline.
Context `{RT : Runtime}.

Definition step_search (search replace : option string) (s : string)
  : Result string :=
  match search, replace with
  | Some pat, Some repl => re_sub pat repl s
  | _, _ => Ok s
  end.

Definition step_prefix (prefix s : string) : string :=
  if decide (prefix = "") then s else prefix +:+ s.

Definition step_suffix (suffix s : string) : string :=
  if decide (suffix = "") then s else s +:+ suffix.

Definition step_number (number : option Z) (number_mode : string)
    (number_padding : Z) (s : string) : string :=
  match number with
  | None => s
  | Some n =>
      if decide (number_mode = "sequential")
      then zfill (str_of_int n) number_padding
      else s +:+ "_" +:+ zfill (str_of_int n) number_padding
  end.

Definition step_date (date : option string) (date_position : string)
    (s : string) : string :=
  match date with
  | None => s
  | Some d =>
      if decide (date_position = "prefix") then d +:+ "_" +:+ s
      else s +:+ "_" +:+ d
  end.

(** The date string, when a date source is configured. *)
Definition step_date_str (fs : gmap Path Node) (file_path : Path)
    (date_type : option string) : Result (option string) :=
  match date_type with
  | Some dt =>
      if decide (dt = "") then Ok None
      else try d <- get_file_date fs file_path dt in Ok (Some d)
  | None => Ok None
  end.

(** Steps 1 to 5 on the stem, in the order of the specification. *)
Definition spec_new_stem (fs : gmap Path Node) (file_path : Path)
    (prefix suffix : string) (search replace : option string)
    (number : option Z) (number_mode : string) (number_padding : Z)
    (date_type : option string) (date_position : string) : Result string :=
  try s1 <- step_search search replace (stem file_path) in
  let s2 := step_prefix prefix s1 in
  let s3 := step_suffix suffix s2 in
  let s4 := step_number number number_mode number_padding s3 in
  try d <- step_date_str fs file_path date_type in
  Ok (step_date d date_position s4).

(** The new stem, then the extension of the original name. *)
Definition spec_generate_new_name (fs : gmap Path Node) (file_path : Path)
    (prefix suffix : string) (search replace : option string)
    (number : option Z) (number_mode : string) (number_padding : Z)
    (date_type : option string) (date_position : string) : Result string :=
  try s <- spec_new_stem fs file_path prefix suffix search replace number
             number_mode number_padding date_type date_position in
  Ok (s +:+ PurePath.suffix file_path).

(** The stem the rule [r] gives [file_path] when the counter is [c]. *)
Definition new_stem_at (r : Rule) (fs : gmap Path Node) (c : Z)
    (file_path : Path) : Result string :=
  spec_new_stem fs file_path (prefix r) (suffix r) (search r) (replace r)
    (if numbering r then Some c else None)
    (number_mode r) (number_padding r) (date_type r) (date_position r).

End SpecPipeline.

(** The outcomes of one iteration, named for the statements below. *)
Definition target (file_path : Path) (new_name : string) : Path :=
  joinpath (parent file_path) new_name.

Definition planned (st : LoopState) (file_path new_path : Path) : LoopState :=
  mkState (disk st) (renames st ++ [(file_path, new_path)])
          (counter st) (warnings st).

Definition skipped (st : LoopState) (file_path : Path) (new_name : string)
  : LoopState :=
  mkState (disk st) (renames st ++ [(file_path, target file_path new_name)])
          (counter st)
          (warnings st ++ [warning_text file_path new_name]).

Definition renamed (st : LoopState) (fs' : gmap Path Node)
    (file_path new_path : Path) : LoopState :=
  mkState fs' (renames st ++ [(file_path, new_path)])
          (counter st) (warnings st).

(** The counter after [k] further files, each of which advanced it. *)
Definition counter_after (r : Rule) (c : Z) (k : nat) : Z :=
  if numbering r then c + Z.of_nat k else c.

Section Outcomes.
Context `{RT : Runtime}.

(** The four ways an iteration of the loop can end without an exception. *)
Inductive step_outcome (r : Rule) (execute : bool) (st : LoopState)
    (f : Path) : LoopState -> Prop :=
  | step_same nm :
      new_name_at r (disk st) (counter st) f = Ok nm ->
      target f nm = f ->
      step_outcome r execute st f (advance r st)
  | step_planned nm :
      new_name_at r (disk st) (counter st) f = Ok nm ->
      target f nm <> f -> execute = false ->
      step_outcome r execute st f (advance r (planned st f (target f nm)))
  | step_skipped nm :
      new_name_at r (disk st) (counter st) f = Ok nm ->
      target f nm <> f -> execute = true ->
      path_exists (disk st) (target f nm) = true ->
      step_outcome r execute st f (skipped st f nm)
  | step_renamed nm fs' :
      new_name_at r (disk st) (counter st) f = Ok nm ->
      target f nm <> f -> execute = true ->
      path_exists (disk st) (target f nm) = false ->
      rename (disk st) f (target f nm) = Ok fs' ->
      step_outcome r execute st f
        (advance r (renamed st fs' f (target f nm))).

(** Every entry of the list pairs a file with a different path, which is
    the file's directory joined with a name the generator gave it. *)
Definition entry_ok (r : Rule) (e : Path * Path) : Prop :=
  snd e <> fst e /\
  exists fs c nm,
    new_name_at r fs c (fst e) = Ok nm /\ snd e = target (fst e) nm.

End Outcomes.

End Renamer.

(* ===================================================================== *)
(** ** A concrete runtime for running the program on examples *)
(* ===================================================================== *)

Module Posix.
Import Text PurePath FileSys.

(** [re.sub] for a pattern and a replacement without metacharacters: every
    occurrence of the pattern, scanning from the left, is replaced; the
    empty pattern matches before every character and at the end. *)
Fixpoint literal_sub_go (pat repl : string) (skip : nat) (s : string)
  : string :=
  match s with
  | EmptyString => ""
  | String a s' =>
      match skip with
      | S k => literal_sub_go pat repl k s'
      | O =>
          if startswith pat s
          then repl +:+ literal_sub_go pat repl (String.length pat - 1) s'
          else String a (literal_sub_go pat repl O s')
      end
  end.

Fixpoint intersperse_all (repl s : string) : string :=
  match s with
  | EmptyString => repl
  | String a s' => repl +:+ String a (intersperse_all repl s')
  end.

Definition literal_sub (pat repl s : string) : string :=
  match pat with
  | EmptyString => intersperse_all repl s
  | _ => literal_sub_go pat repl O s
  end.

(** The calendar date of a timestamp, in UTC. *)
Definition civil_Ymd (t : Z) : string :=
  let z := t / 86400 + 719468 in
  let era := z / 146097 in
  let doe := z - era * 146097 in
  let yoe := (doe - doe / 1460 + doe / 36524 - doe / 146096) / 365 in
  let doy := doe - (365 * yoe + yoe / 4 - yoe / 100) in
  let mp := (5 * doy + 2) / 153 in
  let d := doy - (153 * mp + 2) / 5 + 1 in
  let m := if mp <? 10 then mp + 3 else mp - 9 in
  let y := yoe + era * 400 + (if m <=? 2 then 1 else 0) in
  zfill (str_of_int y) 4 +:+ zfill (str_of_int m) 2 +:+ zfill (str_of_int d) 2.

(** [fnmatch] for patterns made of literal characters, [*] and [?]. *)
Fixpoint fnmatch (pat s : string) : bool :=
  match pat with
  | EmptyString => bool_decide (s = "")
  | String c pat' =>
      if decide (c = "*"%char) then
        (fix star (t : string) : bool :=
           fnmatch pat' t ||
           match t with
           | EmptyString => false
           | String _ t' => star t'
           end) s
      else
        match s with
        | EmptyString => false
        | String d s' =>
            (bool_decide (c = "?"%char) || bool_decide (c = d))
            && fnmatch pat' s'
        end
  end.

Definition is_child (root_path p : Path) : bool :=
  bool_decide (parts p <> []) && bool_decide (parent p = root_path).

Definition is_descendant (root_path p : Path) : bool :=
  bool_decide (root p = root root_path) &&
  match strip_prefix (parts root_path) (parts p) with
  | Some (_ :: _) => true
  | _ => false
  end.

(** [glob] and [rglob] for a pattern of one component: the entries
    directly below the root, or anywhere below it, whose name matches. *)
Definition glob_entries (below : Path -> Path -> bool)
    (fs : gmap Path Node) (root_path : Path) (pattern : string)
  : Result (list Path) :=
  if decide (pattern = "") then Raise ValueError
  else Ok (filter (fun p => below root_path p && fnmatch pattern (name p) = true)
                  (map fst (map_to_list fs))).

#[global] Instance posix_runtime (clock : Z) : Runtime := {|
  re_sub := fun pat repl s => Ok (literal_sub pat repl s);
  strftime_Ymd := civil_Ymd;
  now := clock;
  rglob := glob_entries is_descendant;
  glob := glob_entries is_child
|}.

(** A small tree to run the program on. *)
Definition stat0 : Stat := mkStat 1709596800 None 1709596800.
Definition dir (s : string) : Path * Node := (of_string s, Entry Directory stat0).
Definition file (s : string) : Path * Node := (of_string s, Entry Regular stat0).

Definition mkfs (l : list (Path * Node)) : gmap Path Node := list_to_map l.

Definition default_rule : Renamer.Rule :=
  Renamer.mkRule "" "" None None false "append" 1 3 None "prefix" "*" true.

End Posix.

(* ===================================================================== *)
(** ** Directories and rules used as examples *)
(* ===================================================================== *)

Module Examples.
Import Text PurePath FileSys Renamer Posix.

(** The runtime of the examples; the clock reads 2024-03-05. *)
Definition rt : Runtime := posix_runtime 1709596800.

Definition r_dir : Path := of_string "/r".
Definition a_txt : Path := of_string "/r/a.txt".
Definition a_001_txt : Path := of_string "/r/a_001.txt".
Definition aab_txt : Path := of_string "/r/aab.txt".
Definition ab_txt : Path := of_string "/r/ab.txt".

(** [a.txt] next to a file that already has the name numbering gives it. *)
Definition tree_numbered : gmap Path Node :=
  mkfs [dir "/"; dir "/r"; file "/r/a.txt"; file "/r/a_001.txt"].

(** A file next to a subdirectory. *)
Definition tree_subdir : gmap Path Node :=
  mkfs [dir "/"; dir "/r"; dir "/r/x"; file "/r/a.txt"].

(** Two files that lose their difference when every [a] is removed. *)
Definition tree_merge : gmap Path Node :=
  mkfs [dir "/"; dir "/r"; file "/r/aab.txt"; file "/r/ab.txt"].

(** A file [a.txt] and a directory [a] holding a file [x]. *)
Definition tree_nested : gmap Path Node :=
  mkfs [dir "/"; dir "/r"; dir "/r/a"; file "/r/a/x"; file "/r/a.txt"].

(** [--number --number-mode append], without recursion. *)
Definition rule_append_number : Rule :=
  mkRule "" "" None None true "append" 1 3 None "prefix" "*" false.

(** [--prefix x/ --pattern *.txt], without recursion. *)
Definition rule_prefix_dir : Rule :=
  mkRule "x/" "" None None false "append" 1 3 None "prefix" "*.txt" false.

(** [--search a --replace ""], without recursion. *)
Definition rule_strip_a : Rule :=
  mkRule "" "" (Some "a") (Some "") false "append" 1 3 None "prefix" "*" false.

(** [--search zzz --replace y]: the pattern occurs in no name. *)
Definition rule_no_match : Rule :=
  mkRule "" "" (Some "zzz") (Some "y") false "append" 1 3 None "prefix" "*"
         false.

(** [--number --number-mode sequential --number-start -5]. *)
Definition rule_negative_start : Rule :=
  mkRule "" "" None None true "sequential" (-5) 3 None "prefix" "*" false.

(** Three files, as in the examples of the specification. *)
Definition tree_abc : gmap Path Node :=
  mkfs [dir "/"; dir "/r"; file "/r/a.txt"; file "/r/b.txt"; file "/r/c.txt"].

(** [--number --number-mode sequential --number-start 5 --number-padding 2]. *)
Definition rule_sequential_5 : Rule :=
  mkRule "" "" None None true "sequential" 5 2 None "prefix" "*" true.

(** [--prefix img_ --number --number-mode append]. *)
Definition rule_img_append : Rule :=
  mkRule "img_" "" None None true "append" 1 3 None "prefix" "*" true.

(** [--date modified --date-position suffix]. *)
Definition rule_date_suffix : Rule :=
  mkRule "" "" None None false "append" 1 3 (Some "modified") "suffix" "*"
         true.

(** The state a run leaves behind. *)
Definition state_after (fs : gmap Path Node) (r : Rule) (execute : bool)
  : LoopState :=
  from_Ok (initial_state r fs)
          (rename_files_run (RT := rt) fs r_dir r execute).

End Examples.

(* ===================================================================== *)
(** ** The command line: progress output and main *)
(* ===================================================================== *)

Module Cli.
Import Text PurePath FileSys Renamer.

(** The value of a string of decimal digits with an optional minus sign in
    front, as [int(s)] reads it; leading zeros are accepted. *)
Definition int_of_str (s : string) : option Z :=
  option_map Z.of_int (NilZero.int_of_string s).

Definition carriage_return : string := String (ascii_of_nat 13) "".

(** [c * n] for an integer [n]: empty when [n] is not positive. *)
Definition py_repeat (c : ascii) (n : Z) : string :=
  repeat_char c (Z.to_nat n).

Definition bar_length : Z := 30.

(** [filled] and [bar] of [print_progress]; [//] rounds down. *)
Definition progress_filled (current total : Z) : Z :=
  if 0 <? total then bar_length * current / total else 0.

Definition progress_bar (current total : Z) : string :=
  py_repeat "=" (progress_filled current total)
  +:+ py_repeat "-" (bar_length - progress_filled current total).

Section Console.
(** [f"{current / total * 100:.0f}"], computed on floats by Python. *)
Variable format_percent : Z -> Z -> string.
Context `{RT : Runtime}.

Definition percent_text (current total : Z) : string :=
  if 0 <? total then format_percent current total else "0".

(** The text [print_progress(current, total, message)] writes. *)
Definition print_progress (current total : Z) (message : string) : string :=
  carriage_return +:+ message +:+ ": [" +:+ progress_bar current total
  +:+ "] " +:+ str_of_int current +:+ "/" +:+ str_of_int total
  +:+ " (" +:+ percent_text current total +:+ "%)".

(** The text [clear_progress()] writes. *)
Definition clear_progress : string :=
  carriage_return +:+ repeat_char " " 70 +:+ carriage_return.

(** What [print(x)] writes. *)
Definition print_line (x : string) : string := x +:+ newline.

(** The loop of [rename_files] with what it writes to standard output:
    the progress line comes first in every iteration; [i] is the index
    [enumerate(files, 1)] gives the file. *)
Fixpoint run_loop_io (r : Rule) (execute : bool) (total i : Z)
    (st : LoopState) (out : list string) (files : list Path)
  : Result (LoopState * list string) :=
  match files with
  | [] => Ok (st, out)
  | file_path :: rest =>
      let out1 := out ++ [print_progress i total "Processing"] in
      try st' <- loop_body r execute st file_path in
      run_loop_io r execute total (i + 1) st' out1 rest
  end.

(** [rename_files] with its output: the two texts of [collect_files], the
    progress lines, the text that clears them and the warnings. *)
Definition rename_files_io (fs : gmap Path Node) (root_path : Path)
    (r : Rule) (execute : bool) : Result (LoopState * list string) :=
  try files <- collect_files fs root_path (file_pattern r) (recursive r) in
  let total_files := Z.of_nat (length files) in
  let out0 := ["Scanning for files...";
               print_line (" found " +:+ str_of_int total_files
                           +:+ " file(s)")] in
  try res <- run_loop_io r execute total_files 1 (initial_state r fs) out0
               files in
  Ok (fst res,
      snd res ++ [clear_progress]
      ++ map (fun warning => print_line ("WARNING: " +:+ warning))
             (warnings (fst res))).

(** The namespace [parse_args] returns. *)
Record Args : Type := mkArgs {
  arg_path : string;
  arg_prefix : string;
  arg_suffix : string;
  arg_search : option string;
  arg_replace : option string;
  arg_number : bool;
  arg_number_mode : string;
  arg_number_start : Z;
  arg_number_padding : Z;
  arg_date : option string;
  arg_date_position : string;
  arg_pattern : string;
  arg_no_recursive : bool;
  arg_execute : bool
}.

(** How [main] ends: [sys.exit(code)], a normal return, or an exception
    nobody catches; with the text printed and, after a return, the file
    system left behind. *)
Inductive MainResult : Type :=
  | SysExit (code : Z) (out : list string)
  | Returned (out : list string) (fs : gmap Path Node)
  | Uncaught (e : exn).

(** Truth value of a string and of an optional string. *)
Definition truthy (s : string) : bool := negb (bool_decide (s = "")).

Definition truthy_opt (o : option string) : bool :=
  match o with
  | Some s => truthy s
  | None => false
  end.

Definition is_None (o : option string) : bool :=
  match o with
  | Some _ => false
  | None => true
  end.

Definition rule_of_args (args : Args) : Rule :=
  mkRule (arg_prefix args) (arg_suffix args) (arg_search args)
         (arg_replace args) (arg_number args) (arg_number_mode args)
         (arg_number_start args) (arg_number_padding args) (arg_date args)
         (arg_date_position args) (arg_pattern args)
         (negb (arg_no_recursive args)).

(** [main], from the parsed arguments on. *)
Definition main (fs : gmap Path Node) (args : Args) : MainResult :=
  let root_path := of_string (arg_path args) in
  if negb (path_exists fs root_path) then
    SysExit 1 [print_line ("Error: Path does not exist: " +:+ arg_path args)]
  else if negb (is_dir fs root_path) then
    SysExit 1 [print_line ("Error: Path is not a directory: "
                           +:+ arg_path args)]
  else if negb (Bool.eqb (is_None (arg_search args))
                         (is_None (arg_replace args))) then
    SysExit 1 [print_line "Error: --search and --replace must be used together"]
  else if negb (truthy (arg_prefix args) || truthy (arg_suffix args)
                || truthy_opt (arg_search args) || arg_number args
                || truthy_opt (arg_date args)) then
    SysExit 1 [print_line "Error: No rename options specified. Use --prefix, --suffix, --search/--replace, --number, or --date"]
  else
    match rename_files_io fs root_path (rule_of_args args) (arg_execute args)
    with
    | Raise e => Uncaught e
    | Ok (st, out) =>
        Returned (out ++ map print_line
                           (report root_path (arg_execute args) (renames st)))
                 (disk st)
    end.

End Console.

(** A stand-in for the float formatting of the percentage, for running
    examples: the quotient rounded to the nearest integer. *)
Definition rounded_percent (current total : Z) : string :=
  str_of_int ((200 * current + total) / (2 * total)).

End Cli.

Module CliExamples.
Import Text PurePath FileSys Renamer Posix Examples Cli.

(** [/r --search "" --replace x]. *)
Definition args_empty_search : Args :=
  mkArgs "/r" "" "" (Some "") (Some "x") false "append" 1 3 None "prefix"
         "*" false true.

(** [/r --number --execute]. *)
Definition args_numbered : Args :=
  mkArgs "/r" "" "" None None true "append" 1 3 None "prefix" "*" false true.

(** [/r --number]. *)
Definition args_preview : Args :=
  mkArgs "/r" "" "" None None true "append" 1 3 None "prefix" "*" false false.

(** The text and the file system of a result of [main]. *)
Definition main_out (m : MainResult) : list string :=
  match m with
  | SysExit _ out => out
  | Returned out _ => out
  | Uncaught _ => []
  end.

Definition main_fs (default : gmap Path Node) (m : MainResult)
  : gmap Path Node :=
  match m with
  | Returned _ fs => fs
  | _ => default
  end.

(** Two files to number from 5 next to a file already named [05.txt];
    the loop is run on the two files only. *)
Definition tree_blocked : gmap Path Node :=
  mkfs [dir "/"; dir "/r"; file "/r/05.txt"; file "/r/a.txt";
        file "/r/b.txt"].

End CliExamples.

(* ===================================================================== *)
(** ** The limits of the interpreter in generate_new_name *)
(* ===================================================================== *)

(** [Renamer] takes [str], [str.zfill] and the building of a string as
    total.  The interpreter sets limits to them: [str(n)] raises
    [ValueError] when [n] has more decimal digits than
    [sys.get_int_max_str_digits()], [zfill] raises [OverflowError] when
    its width is outside the C type [Py_ssize_t], and a string longer than
    the interpreter can allocate raises [MemoryError].  Here
    [generate_new_name] is written once more, with these limits. *)
Module Checked.
Import Text PurePath FileSys Renamer.

(** The range of [Py_ssize_t] on a 64-bit build. *)
Definition ssize_t_min : Z := - 2 ^ 63.
Definition ssize_t_max : Z := 2 ^ 63 - 1.

Definition fits_ssize_t (w : Z) : bool :=
  (ssize_t_min <=? w) && (w <=? ssize_t_max).

(** The number of decimal digits of [n], the sign not counted. *)
Definition decimal_digits (n : Z) : Z :=
  Z.of_nat (String.length (str_of_int (Z.abs n))).

Section Interpreter.

(** [sys.get_int_max_str_digits()]: 4300 where nothing else is configured,
    never between 1 and 639; [None] where the limit is switched off or the
    interpreter has none. *)
Variable int_max_str_digits : option Z.

(** The length of the longest string the interpreter can allocate on the
    machine at hand, far below [ssize_t_max]. *)
Variable max_str_len : Z.

Context `{RT : Runtime}.

(** A string the interpreter has to build. *)
Definition alloc (s : string) : Result string :=
  if Z.of_nat (String.length s) <=? max_str_len then Ok s
  else Raise MemoryError.

Definition exceeds_str_digits (n : Z) : bool :=
  match int_max_str_digits with
  | Some limit => limit <? decimal_digits n
  | None => false
  end.

(** [str(n)] *)
Definition str_checked (n : Z) : Result string :=
  if exceeds_str_digits n then Raise ValueError
  else alloc (str_of_int n).

(** [s.zfill(width)]: the width is converted first; a string that has the
    width already is returned as it is. *)
Definition zfill_checked (s : string) (width : Z) : Result string :=
  if negb (fits_ssize_t width) then Raise OverflowError
  else if width <=? Z.of_nat (String.length s) then Ok s
  else alloc (zfill s width).

(** [num_str = str(number).zfill(number_padding)] *)
Definition num_str (number number_padding : Z) : Result string :=
  try digits <- str_checked number in
  zfill_checked digits number_padding.

(** [generate_new_name(file_path, prefix, suffix, search, replace, number,
    number_mode, number_padding, date_type, date_position)] *)
Definition generate_new_name_checked (fs : gmap Path Node) (file_path : Path)
    (prefix suffix : string) (search replace : option string)
    (number : option Z) (number_mode : string) (number_padding : Z)
    (date_type : option string) (date_position : string) : Result string :=
  let stem0 := stem file_path in
  let ext := PurePath.suffix file_path in
  try stem1 <-
    match search, replace with
    | Some pat, Some repl => re_sub pat repl stem0
    | _, _ => Ok stem0
    end in
  try stem2 <-
    (if decide (prefix = "") then Ok stem1 else alloc (prefix +:+ stem1)) in
  try stem3 <-
    (if decide (suffix = "") then Ok stem2 else alloc (stem2 +:+ suffix)) in
  try stem4 <-
    match number with
    | Some n =>
        try num <- num_str n number_padding in
        if decide (number_mode = "sequential") then Ok num
        else alloc (stem3 +:+ "_" +:+ num)
    | None => Ok stem3
    end in
  try stem5 <-
    match date_type with
    | Some dt =>
        if decide (dt = "") then Ok stem4
        else
          try date_str <- get_file_date fs file_path dt in
          if decide (date_position = "prefix")
          then alloc (date_str +:+ "_" +:+ stem4)
          else alloc (stem4 +:+ "_" +:+ date_str)
    | None => Ok stem4
    end in
  alloc (stem5 +:+ ext).

End Interpreter.

End Checked.

(* ===================================================================== *)
(** ** main with its command line *)
(* ===================================================================== *)

Module Argv.
Import Text PurePath FileSys Renamer Cli.

(** How [parser.parse_args()] ends: with the namespace, or in
    [parser.exit(status, message)], which ends the program with
    [sys.exit(status)] after the usage or help text: status 2 from
    [parser.error] for a command line it does not accept, status 0 after
    [--help]. *)
Inductive Parsed : Type :=
  | Namespace (args : Args)
  | ParserExit (status : Z) (text : list string).

Section Program.
(** [argparse] with the arguments [main] adds to the parser. *)
Variable parse_args : list string -> Parsed.
Variable format_percent : Z -> Z -> string.
Context `{RT : Runtime}.

(** [main()], run with [sys.argv[1:]]. *)
Definition main_argv (fs : gmap Path Node) (argv : list string)
  : MainResult :=
  match parse_args argv with
  | ParserExit status text => SysExit status text
  | Namespace args => main format_percent fs args
  end.

End Program.

(** A stand-in for [parse_args], for running examples: it knows [--help]
    and the command line [path --search pattern --replace text] and
    refuses every other one. *)
Definition parse_args_example (argv : list string) : Parsed :=
  match argv with
  | ["--help"] => ParserExit 0 ["usage"]
  | [path; "--search"; pat; "--replace"; repl] =>
      Namespace (mkArgs path "" "" (Some pat) (Some repl) false "append"
                        1 3 None "prefix" "*" false false)
  | _ => ParserExit 2 ["usage"; "error"]
  end.

End Argv.

(* ===================================================================== *)
(** ** Facts about the string operations *)
(* ===================================================================== *)

Module TextFacts.
Import Text.

Lemma append_cons (a : ascii) (s t : string) :
  String a s +:+ t = String a (s +:+ t).
Proof. reflexivity. Qed.

Lemma append_nil_l (t : string) : "" +:+ t = t.
Proof. reflexivity. Qed.

Lemma append_nil_r (s : string) : s +:+ "" = s.
Proof.
  induction s as [|a s IH]; [done|]. by rewrite append_cons, IH.
Qed.

Lemma append_assoc (s t u : string) : (s +:+ t) +:+ u = s +:+ (t +:+ u).
Proof.
  induction s as [|a s IH]; [done|]. by rewrite !append_cons, IH.
Qed.

Lemma length_append (s t : string) :
  String.length (s +:+ t) = (String.length s + String.length t)%nat.
Proof.
  induction s as [|a s IH]; [done|]. rewrite append_cons. simpl. by rewrite IH.
Qed.

Lemma length_repeat_char (c : ascii) (n : nat) :
  String.length (repeat_char c n) = n.
Proof. induction n as [|n IH]; simpl; [done | by rewrite IH]. Qed.

Lemma take_drop (i : nat) (s : string) : take_str i s +:+ drop_str i s = s.
Proof.
  revert s. induction i as [|i IH]; intros [|a s]; simpl; try done.
  by rewrite append_cons, IH.
Qed.

Lemma split_on_not_nil (sep : ascii) (s : string) : split_on sep s <> [].
Proof.
  induction s as [|a s IH]; simpl; [done|].
  destruct (decide (a = sep)); [done|].
  by destruct (split_on sep s).
Qed.

Lemma split_on_no_sep (sep : ascii) (s : string) :
  contains_char sep s = false -> split_on sep s = [s].
Proof.
  induction s as [|a s IH]; simpl; [done|].
  intros H. apply orb_false_iff in H as [Ha Hs].
  apply bool_decide_eq_false in Ha.
  destruct (decide (a = sep)); [done|]. by rewrite (IH Hs).
Qed.

Lemma split_on_cons_sep (sep : ascii) (s : string) :
  split_on sep (String sep s) = "" :: split_on sep s.
Proof. simpl. by destruct (decide (sep = sep)). Qed.

Lemma split_on_app_sep (sep : ascii) (s t : string) :
  contains_char sep s = false ->
  split_on sep (s +:+ String sep t) = s :: split_on sep t.
Proof.
  induction s as [|a s IH]; rewrite ?append_cons, ?append_nil_l; simpl.
  - intros _. by destruct (decide (sep = sep)).
  - intros H. apply orb_false_iff in H as [Ha Hs].
    apply bool_decide_eq_false in Ha.
    destruct (decide (a = sep)); [done|]. by rewrite (IH Hs).
Qed.

Lemma split_on_join (l : list string) :
  l <> [] ->
  Forall (fun x => contains_char "/" x = false) l ->
  split_on "/" (join "/" l) = l.
Proof.
  induction l as [|x l IH]; [done|].
  intros _ Hall. apply Forall_cons in Hall as [Hx Hl].
  destruct l as [|y l].
  - simpl. by apply split_on_no_sep.
  - change (join "/" (x :: y :: l)) with (x +:+ String "/" (join "/" (y :: l))).
    rewrite split_on_app_sep by done. f_equal. by apply IH.
Qed.

(** [list_leb] is a total order on lists of strings. *)
Lemma list_leb_total (l1 l2 : list string) :
  list_leb l1 l2 = true \/ list_leb l2 l1 = true.
Proof.
  revert l2. induction l1 as [|a l1 IH]; intros [|b l2]; simpl; auto.
  destruct (decide (a = b)) as [->|Hab].
  - destruct (decide (b = b)); [apply IH | done].
  - destruct (decide (b = a)) as [->|]; [done|].
    destruct (total String.le a b) as [H|H]; unfold String.le in H;
      apply Is_true_true in H; auto.
Qed.

Lemma list_leb_antisym (l1 l2 : list string) :
  list_leb l1 l2 = true -> list_leb l2 l1 = true -> l1 = l2.
Proof.
  revert l2. induction l1 as [|a l1 IH]; intros [|b l2]; simpl; try done.
  destruct (decide (a = b)) as [->|Hab].
  - destruct (decide (b = b)); [|done]. intros H1 H2. f_equal. by apply IH.
  - destruct (decide (b = a)) as [->|]; [done|].
    intros H1 H2. exfalso. apply Hab.
    apply (anti_symm String.le); unfold String.le; by apply Is_true_true.
Qed.

Lemma list_leb_trans (l1 l2 l3 : list string) :
  list_leb l1 l2 = true -> list_leb l2 l3 = true -> list_leb l1 l3 = true.
Proof.
  revert l2 l3.
  induction l1 as [|a l1 IH]; intros [|b l2] [|c l3]; simpl; try done.
  destruct (decide (a = b)) as [->|Hab].
  - destruct (decide (b = c)) as [->|Hbc]; [apply IH | done].
  - destruct (decide (b = c)) as [->|Hbc].
    + intros H _. by destruct (decide (a = c)).
    + intros H1 H2.
      assert (Hac : String.le a c).
      { transitivity b; unfold String.le; by apply Is_true_true. }
      destruct (decide (a = c)) as [->|].
      * exfalso. apply Hab.
        apply (anti_symm String.le); unfold String.le; by apply Is_true_true.
      * by apply Is_true_true in Hac.
Qed.

(** [str(n)] of a number that is not negative starts with a digit. *)
Lemma string_of_uint_no_sign (d : Decimal.uint) :
  match NilEmpty.string_of_uint d with
  | String c _ => is_sign c = false
  | EmptyString => True
  end.
Proof. by destruct d. Qed.

Lemma str_of_int_nonneg_head (n : Z) :
  0 <= n ->
  exists c rest, str_of_int n = String c rest /\ is_sign c = false.
Proof.
  intros Hn. unfold str_of_int, Z.to_int.
  destruct n as [|p|p]; [by eexists _, _ | | lia].
  simpl. unfold NilZero.string_of_uint.
  pose proof (string_of_uint_no_sign (Pos.to_uint p)) as H.
  destruct (Pos.to_uint p) eqn:E; simpl in *;
    try (by eexists _, _).
Qed.

Lemma str_of_int_neg_head (n : Z) :
  n < 0 -> exists rest, str_of_int n = String "-" rest.
Proof.
  intros Hn. destruct n as [|p|p]; [lia | lia |].
  unfold str_of_int. simpl. by eexists.
Qed.

End TextFacts.

(* ===================================================================== *)
(** ** Facts about paths *)
(* ===================================================================== *)

Module PurePathFacts.
Import Text TextFacts PurePath.

(** The stem and the suffix of a path cut its name in two. *)
Lemma stem_suffix_name (p : Path) : stem p +:+ suffix p = name p.
Proof.
  unfold stem, suffix. destruct (cut_point (name p)) as [i|].
  - apply take_drop.
  - apply append_nil_r.
Qed.

Lemma split_on_parts_no_sep (sep : ascii) (s : string) :
  Forall (fun x => contains_char sep x = false) (split_on sep s).
Proof.
  induction s as [|a s IH]; simpl.
  - by repeat constructor.
  - destruct (decide (a = sep)) as [->|Ha].
    + by constructor.
    + destruct (split_on sep s) as [|h t]; simpl.
      * repeat constructor. simpl. rewrite orb_false_r.
        by apply bool_decide_eq_false.
      * apply Forall_cons in IH as [Hh Ht]. constructor; [|done].
        simpl. rewrite Hh, orb_false_r. by apply bool_decide_eq_false.
Qed.

Lemma components_are_parts (s : string) :
  Forall (fun x => is_part x = true) (components s).
Proof.
  unfold components. apply Forall_forall. intros x Hx.
  apply list_elem_of_filter in Hx as [Hkeep Hin].
  pose proof (split_on_parts_no_sep "/" s) as Hall.
  rewrite Forall_forall in Hall. unfold is_part.
  by rewrite Hkeep, (Hall x Hin).
Qed.

Lemma root_of_cases (s : string) :
  root_of s = "" \/ root_of s = "/" \/ root_of s = "//".
Proof.
  unfold root_of.
  repeat (match goal with
          | |- context [match ?x with _ => _ end] => destruct x
          end; auto).
Qed.

(** Parsing gives well-formed paths. *)
Lemma wf_of_string (s : string) : wf_path (of_string s).
Proof. split; [apply root_of_cases | apply components_are_parts]. Qed.

Lemma is_part_inv (x : string) :
  is_part x = true ->
  x <> "" /\ x <> "." /\ contains_char "/" x = false.
Proof.
  unfold is_part, keep_part. intros H.
  apply andb_true_iff in H as [H1 H2].
  apply andb_true_iff in H1 as [Ha Hb].
  apply negb_true_iff in Ha, Hb, H2.
  apply bool_decide_eq_false in Ha, Hb. done.
Qed.

Lemma of_string_part (x : string) :
  is_part x = true -> of_string x = mkPath "" [x].
Proof.
  intros Hx. pose proof (is_part_inv x Hx) as (Hne & Hdot & Hsep).
  unfold of_string, components. rewrite (split_on_no_sep _ _ Hsep).
  f_equal.
  - destruct x as [|a x]; [done|]. simpl in Hsep.
    apply orb_false_iff in Hsep as [Ha _]. apply bool_decide_eq_false in Ha.
    unfold root_of.
    repeat (match goal with
            | |- context [match ?x with _ => _ end] => destruct x
            end; try done).
  - rewrite filter_cons_True; [done|].
    unfold is_part in Hx. by apply andb_true_iff in Hx as [? _].
Qed.

Lemma joinpath_part (p : Path) (x : string) :
  is_part x = true -> joinpath p x = mkPath (root p) (parts p ++ [x]).
Proof.
  intros Hx. unfold joinpath. rewrite (of_string_part x Hx). simpl.
  by destruct (decide ("" = "")).
Qed.

(** Joining one component leaves the directory it is joined to as the
    parent. *)
Lemma parent_joinpath_part (p : Path) (x : string) :
  is_part x = true -> parent (joinpath p x) = p.
Proof.
  intros Hx. rewrite (joinpath_part p x Hx). unfold parent. simpl.
  rewrite removelast_last. by destruct p.
Qed.

Lemma of_string_empty : of_string "" = mkPath "" [].
Proof. reflexivity. Qed.

(** A path is its parent joined with its name. *)
Lemma joinpath_parent_name (f : Path) :
  wf_path f -> joinpath (parent f) (name f) = f.
Proof.
  intros [_ Hparts]. destruct f as [r l]. unfold name, parent. simpl in *.
  destruct l as [|x l' _] using rev_ind.
  - simpl. unfold joinpath. rewrite of_string_empty. simpl.
    by destruct (decide ("" = "")).
  - rewrite last_last, removelast_last.
    apply Forall_app in Hparts as [_ Hx]. apply Forall_cons in Hx as [Hx _].
    by rewrite (joinpath_part _ _ Hx).
Qed.

(** [path_le] is a total order on well-formed paths. *)
#[global] Instance path_le_total : Total path_le.
Proof. intros p q. apply list_leb_total. Qed.

#[global] Instance path_le_trans : Transitive path_le.
Proof. intros p q r. apply list_leb_trans. Qed.

Lemma sort_key_wf (p : Path) :
  wf_path p ->
  sort_key p =
    match root p, parts p with
    | "", [] => ["."]
    | "", l => l
    | "/", [] => [""; ""]
    | "/", l => "" :: l
    | _, [] => [""; ""; ""]
    | _, l => "" :: "" :: l
    end.
Proof.
  intros [Hroot Hparts]. destruct p as [r l]. simpl in *.
  assert (Hsep : Forall (fun x => contains_char "/" x = false) l).
  { eapply Forall_impl; [exact Hparts|]. intros x Hx.
    by apply is_part_inv in Hx as (_ & _ & ?). }
  unfold sort_key, to_string. simpl.
  destruct l as [|x l].
  - by destruct Hroot as [->|[->| ->]].
  - pose proof (split_on_join (x :: l) ltac:(done) Hsep) as Hsplit.
    destruct Hroot as [->|[->| ->]].
    + by rewrite append_nil_l.
    + change ("/" +:+ join "/" (x :: l))
        with (String "/" (join "/" (x :: l))).
      by rewrite split_on_cons_sep, Hsplit.
    + change ("//" +:+ join "/" (x :: l))
        with (String "/" (String "/" (join "/" (x :: l)))).
      by rewrite !split_on_cons_sep, Hsplit.
Qed.

Lemma sort_key_inj (p q : Path) :
  wf_path p -> wf_path q -> sort_key p = sort_key q -> p = q.
Proof.
  intros Hp Hq. rewrite (sort_key_wf p Hp), (sort_key_wf q Hq).
  destruct Hp as [Hrp Hpp], Hq as [Hrq Hpq].
  destruct p as [rp lp], q as [rq lq]. simpl in *.
  assert (Hhead : forall l x l', Forall (fun x => is_part x = true) l ->
            l = x :: l' -> x <> "" /\ x <> ".").
  { intros l x l' Hall ->. apply Forall_cons in Hall as [Hx _].
    apply is_part_inv in Hx. tauto. }
  destruct lp as [|x lp]; destruct lq as [|y lq];
    destruct Hrp as [->|[->| ->]]; destruct Hrq as [->|[->| ->]];
    intros Heq; simplify_eq; try done;
    try (by destruct (Hhead _ _ _ Hpp eq_refl));
    try (by destruct (Hhead _ _ _ Hpq eq_refl)).
Qed.

Lemma path_le_antisym (p q : Path) :
  wf_path p -> wf_path q -> path_le p q -> path_le q p -> p = q.
Proof.
  intros Hp Hq H1 H2. apply sort_key_inj; [done..|].
  by apply list_leb_antisym.
Qed.

End PurePathFacts.

(* ===================================================================== *)
(** ** The name generator *)
(* ===================================================================== *)

Module GeneratorFacts.
Import Text TextFacts PurePath PurePathFacts FileSys Renamer.

Lemma lpad_short (c : ascii) (s : string) (w : Z) :
  w <= Z.of_nat (String.length s) -> lpad c s w = s.
Proof.
  intros Hw. unfold lpad.
  replace (Z.to_nat (w - Z.of_nat (String.length s))) with O by lia.
  reflexivity.
Qed.

Lemma zfill_short (s : string) (w : Z) :
  w <= Z.of_nat (String.length s) -> zfill s w = s.
Proof.
  intros Hw. unfold zfill.
  destruct (Z.leb_spec w (Z.of_nat (String.length s))); [done | lia].
Qed.

Lemma zfill_unsigned (c : ascii) (rest : string) (w : Z) :
  is_sign c = false -> zfill (String c rest) w = lpad "0" (String c rest) w.
Proof.
  intros Hc. unfold zfill.
  destruct (Z.leb_spec w (Z.of_nat (String.length (String c rest)))).
  - by rewrite lpad_short.
  - by rewrite Hc.
Qed.

Lemma zfill_signed (c : ascii) (rest : string) (w : Z) :
  is_sign c = true ->
  zfill (String c rest) w = String c (lpad "0" rest (w - 1)).
Proof.
  intros Hc. unfold zfill.
  destruct (Z.leb_spec w (Z.of_nat (String.length (String c rest)))) as [H|H].
  - rewrite lpad_short; [done|]. simpl in H. lia.
  - rewrite Hc. unfold lpad. do 3 f_equal. simpl. lia.
Qed.

Lemma length_zfill (s : string) (w : Z) :
  Z.of_nat (String.length (zfill s w)) = Z.max (Z.of_nat (String.length s)) w.
Proof.
  unfold zfill.
  destruct (Z.leb_spec w (Z.of_nat (String.length s))) as [H|H]; [lia|].
  destruct s as [|c rest].
  - rewrite length_repeat_char. simpl in *. lia.
  - destruct (is_sign c); simpl;
      rewrite length_append, length_repeat_char; simpl in *; lia.
Qed.

Section WithRuntime.
Context `{RT : Runtime}.

(** The generator is the five steps of the specification in their order,
    followed by the extension. *)
Lemma generate_new_name_pipeline (fs : gmap Path Node) (file_path : Path)
    (prefix suffix : string) (search replace : option string)
    (number : option Z) (number_mode : string) (number_padding : Z)
    (date_type : option string) (date_position : string) :
  generate_new_name fs file_path prefix suffix search replace number
    number_mode number_padding date_type date_position
  = spec_generate_new_name fs file_path prefix suffix search replace number
      number_mode number_padding date_type date_position.
Proof.
  unfold generate_new_name, spec_generate_new_name, spec_new_stem,
    step_search, step_date_str.
  destruct search as [pat|], replace as [repl|]; simpl;
    try destruct (re_sub pat repl (stem file_path)) as [s1|e]; simpl;
    try reflexivity;
    unfold step_number, step_suffix, step_prefix, step_date;
    (destruct date_type as [dt|]; simpl; [|reflexivity]);
    (destruct (decide (dt = "")); simpl; [reflexivity|]);
    (destruct (get_file_date fs file_path dt) as [d|e]; simpl;
       [|reflexivity]);
    by destruct (decide (date_position = "prefix")).
Qed.

(** The same, with the steps written out. *)
Lemma generate_new_name_steps (fs : gmap Path Node) (file_path : Path)
    (prefix suffix : string) (search replace : option string)
    (number : option Z) (number_mode : string) (number_padding : Z)
    (date_type : option string) (date_position : string) :
  generate_new_name fs file_path prefix suffix search replace number
    number_mode number_padding date_type date_position
  = (try s1 <- step_search search replace (stem file_path) in
     try d <- step_date_str fs file_path date_type in
     Ok (step_date d date_position
           (step_number number number_mode number_padding
              (step_suffix suffix (step_prefix prefix s1)))
         +:+ PurePath.suffix file_path)).
Proof.
  rewrite generate_new_name_pipeline.
  unfold spec_generate_new_name, spec_new_stem.
  destruct (step_search search replace (stem file_path)); simpl; [|done].
  by destruct (step_date_str fs file_path date_type).
Qed.

End WithRuntime.


(** The shape of [zfill] on the decimal representation of an integer:
    for a number that is not negative the representation padded on the
    left with ["0"]; for a negative number the zeros go between the minus
    sign and the digits; a representation that already has the width or
    more is returned whole, and the result is as long as the longer of
    the two. *)
Lemma zfill_shape (n w : Z) :
  (0 <= n -> zfill (str_of_int n) w = lpad "0" (str_of_int n) w) /\
  (n < 0 -> exists digits,
      str_of_int n = String "-" digits /\
      zfill (str_of_int n) w = String "-" (lpad "0" digits (w - 1))) /\
  (w <= Z.of_nat (String.length (str_of_int n)) ->
      zfill (str_of_int n) w = str_of_int n) /\
  Z.of_nat (String.length (zfill (str_of_int n) w))
    = Z.max (Z.of_nat (String.length (str_of_int n))) w.
Proof.
  repeat split.
  - intros Hn. destruct (str_of_int_nonneg_head n Hn) as (c & rest & -> & Hc).
    by apply zfill_unsigned.
  - intros Hn. destruct (str_of_int_neg_head n Hn) as (digits & ->).
    exists digits. split; [done|]. by apply zfill_signed.
  - apply zfill_short.
  - apply length_zfill.
Qed.

End GeneratorFacts.

(* ===================================================================== *)
(** ** The loop of rename_files *)
(* ===================================================================== *)

Module LoopFacts.
Import Text TextFacts PurePath PurePathFacts FileSys Renamer GeneratorFacts.

Section WithRuntime.
Context `{RT : Runtime}.
Implicit Types (r : Rule) (st : LoopState) (f : Path) (fs : gmap Path Node).

Lemma bind_Ok {A B : Type} (m : Result A) (k : A -> Result B) (b : B) :
  bind m k = Ok b -> exists a, m = Ok a /\ k a = Ok b.
Proof. destruct m as [a|e]; simpl; [eauto | done]. Qed.

Lemma new_name_at_stem r fs c f :
  new_name_at r fs c f
  = (try s <- new_stem_at r fs c f in Ok (s +:+ PurePath.suffix f)).
Proof. unfold new_name_at. by rewrite generate_new_name_pipeline. Qed.

Lemma loop_body_same r execute st f nm :
  new_name_at r (disk st) (counter st) f = Ok nm ->
  target f nm = f ->
  loop_body r execute st f = Ok (advance r st).
Proof.
  intros Hnm Hsame. unfold loop_body. rewrite Hnm. simpl.
  fold (target f nm). rewrite Hsame. by destruct (decide (f <> f)).
Qed.

Lemma loop_body_dry r st f nm :
  new_name_at r (disk st) (counter st) f = Ok nm ->
  target f nm <> f ->
  loop_body r false st f = Ok (advance r (planned st f (target f nm))).
Proof.
  intros Hnm Hdiff. unfold loop_body. rewrite Hnm. simpl.
  fold (target f nm). by destruct (decide (target f nm <> f)).
Qed.

Lemma loop_body_conflict r st f nm :
  new_name_at r (disk st) (counter st) f = Ok nm ->
  target f nm <> f ->
  path_exists (disk st) (target f nm) = true ->
  loop_body r true st f = Ok (skipped st f nm).
Proof.
  intros Hnm Hdiff Hex. unfold loop_body. rewrite Hnm. simpl.
  fold (target f nm). destruct (decide (target f nm <> f)); [|done].
  rewrite Hex. simpl. by rewrite bool_decide_eq_true_2.
Qed.

Lemma loop_body_rename r st f nm :
  new_name_at r (disk st) (counter st) f = Ok nm ->
  target f nm <> f ->
  path_exists (disk st) (target f nm) = false ->
  loop_body r true st f
  = (try fs' <- rename (disk st) f (target f nm) in
     Ok (advance r (renamed st fs' f (target f nm)))).
Proof.
  intros Hnm Hdiff Hex. unfold loop_body. rewrite Hnm. simpl.
  fold (target f nm). destruct (decide (target f nm <> f)); [|done].
  by rewrite Hex.
Qed.

Lemma loop_body_outcome r execute st f st' :
  loop_body r execute st f = Ok st' -> step_outcome r execute st f st'.
Proof.
  intros H.
  destruct (new_name_at r (disk st) (counter st) f) as [nm|e] eqn:Hnm;
    [|by unfold loop_body in H; rewrite Hnm in H].
  destruct (decide (target f nm = f)) as [Hsame|Hdiff].
  { rewrite (loop_body_same _ _ _ _ _ Hnm Hsame) in H. simplify_eq.
    by eapply step_same. }
  destruct execute.
  - destruct (path_exists (disk st) (target f nm)) eqn:Hex.
    + rewrite (loop_body_conflict _ _ _ _ Hnm Hdiff Hex) in H. simplify_eq.
      by eapply step_skipped.
    + rewrite (loop_body_rename _ _ _ _ Hnm Hdiff Hex) in H.
      apply bind_Ok in H as (fs' & Hren & H). simplify_eq.
      by eapply step_renamed.
  - rewrite (loop_body_dry _ _ _ _ Hnm Hdiff) in H. simplify_eq.
    by eapply step_planned.
Qed.

Lemma run_loop_cons r execute st f rest st' :
  run_loop r execute st (f :: rest) = Ok st' ->
  exists st1, loop_body r execute st f = Ok st1 /\
              run_loop r execute st1 rest = Ok st'.
Proof. simpl. apply bind_Ok. Qed.

Lemma run_loop_app r execute st l1 l2 :
  run_loop r execute st (l1 ++ l2)
  = (try st1 <- run_loop r execute st l1 in run_loop r execute st1 l2).
Proof.
  revert st. induction l1 as [|f l1 IH]; intros st; simpl; [done|].
  destruct (loop_body r execute st f) as [st1|e]; simpl; [apply IH | done].
Qed.

Lemma advance_disk r st : disk (advance r st) = disk st.
Proof. unfold advance. by destruct (numbering r). Qed.

Lemma advance_renames r st : renames (advance r st) = renames st.
Proof. unfold advance. by destruct (numbering r). Qed.

Lemma advance_warnings r st : warnings (advance r st) = warnings st.
Proof. unfold advance. by destruct (numbering r). Qed.

Lemma advance_counter r st :
  counter (advance r st) = counter_after r (counter st) 1.
Proof. unfold advance, counter_after. by destruct (numbering r). Qed.

Lemma counter_after_S r c k :
  counter_after r (counter_after r c 1) k = counter_after r c (S k).
Proof. unfold counter_after. destruct (numbering r); lia. Qed.

Lemma counter_after_0 r c : counter_after r c 0 = c.
Proof. unfold counter_after. destruct (numbering r); lia. Qed.

(** The list of renames only grows, at its end. *)
Lemma loop_body_renames_grow r execute st f st' :
  loop_body r execute st f = Ok st' ->
  exists extra, renames st' = renames st ++ extra.
Proof.
  intros H. apply loop_body_outcome in H.
  destruct H; rewrite ?advance_renames; simpl;
    first [by exists []; rewrite app_nil_r | by eexists].
Qed.

Lemma run_loop_renames_grow r execute st files st' :
  run_loop r execute st files = Ok st' ->
  exists extra, renames st' = renames st ++ extra.
Proof.
  revert st. induction files as [|f rest IH]; intros st H.
  - simpl in H. simplify_eq. exists []. by rewrite app_nil_r.
  - apply run_loop_cons in H as (st1 & H1 & H2).
    apply loop_body_renames_grow in H1 as (e1 & E1).
    apply IH in H2 as (e2 & E2). exists (e1 ++ e2).
    by rewrite E2, E1, app_assoc.
Qed.

(** A dry run leaves the file system and the warnings alone and advances
    the counter for every file. *)
Lemma loop_body_dry_frame r st f st' :
  loop_body r false st f = Ok st' ->
  disk st' = disk st /\ warnings st' = warnings st /\
  counter st' = counter_after r (counter st) 1.
Proof.
  intros H. apply loop_body_outcome in H.
  destruct H; try done;
    by rewrite advance_disk, advance_warnings, advance_counter.
Qed.

Lemma run_loop_dry_frame r st files st' :
  run_loop r false st files = Ok st' ->
  disk st' = disk st /\ warnings st' = warnings st /\
  counter st' = counter_after r (counter st) (length files).
Proof.
  revert st. induction files as [|f rest IH]; intros st H.
  - simpl in H. simplify_eq. by rewrite counter_after_0.
  - apply run_loop_cons in H as (st1 & H1 & H2).
    apply loop_body_dry_frame in H1 as (D1 & W1 & C1).
    apply IH in H2 as (D2 & W2 & C2).
    rewrite D2, W2, C2, D1, W1, C1. by rewrite counter_after_S.
Qed.

Lemma loop_body_entries r execute st f st' :
  Forall (entry_ok r) (renames st) ->
  loop_body r execute st f = Ok st' ->
  Forall (entry_ok r) (renames st').
Proof.
  intros Hinv H. apply loop_body_outcome in H.
  assert (Hnew : forall nm,
            new_name_at r (disk st) (counter st) f = Ok nm ->
            target f nm <> f ->
            Forall (entry_ok r) (renames st ++ [(f, target f nm)])).
  { intros nm Hnm Hdiff. apply Forall_app. split; [done|].
    repeat constructor; simpl; [done|]. by exists (disk st), (counter st), nm. }
  destruct H; rewrite ?advance_renames; simpl; eauto.
Qed.

Lemma run_loop_entries r execute st files st' :
  Forall (entry_ok r) (renames st) ->
  run_loop r execute st files = Ok st' ->
  Forall (entry_ok r) (renames st').
Proof.
  revert st. induction files as [|f rest IH]; intros st Hinv H.
  - simpl in H. by simplify_eq.
  - apply run_loop_cons in H as (st1 & H1 & H2).
    eapply IH; [|exact H2]. by eapply loop_body_entries.
Qed.

(** A file whose stem the rule leaves as it is gets its own name back and
    passes through the loop without a trace. *)
Lemma new_name_unchanged r fs c f :
  new_stem_at r fs c f = Ok (stem f) -> new_name_at r fs c f = Ok (name f).
Proof.
  intros H. rewrite new_name_at_stem, H. simpl.
  by rewrite stem_suffix_name.
Qed.

Lemma loop_body_unchanged r execute st f :
  wf_path f ->
  new_stem_at r (disk st) (counter st) f = Ok (stem f) ->
  loop_body r execute st f = Ok (advance r st).
Proof.
  intros Hwf H. eapply loop_body_same.
  - by apply new_name_unchanged.
  - by apply joinpath_parent_name.
Qed.

Lemma new_stem_no_option r fs c f :
  prefix r = "" -> suffix r = "" -> numbering r = false ->
  (date_type r = None \/ date_type r = Some "") ->
  step_search (search r) (replace r) (stem f) = Ok (stem f) ->
  new_stem_at r fs c f = Ok (stem f).
Proof.
  intros Hp Hs Hn Hd Hsearch. unfold new_stem_at, spec_new_stem.
  rewrite Hsearch, Hp, Hs, Hn. simpl.
  by destruct Hd as [-> | ->].
Qed.

Lemma run_loop_all_unchanged r execute st files :
  Forall wf_path files ->
  (forall f fs c, f ∈ files -> new_stem_at r fs c f = Ok (stem f)) ->
  exists st', run_loop r execute st files = Ok st' /\
              renames st' = renames st /\ disk st' = disk st /\
              warnings st' = warnings st.
Proof.
  revert st. induction files as [|f rest IH]; intros st Hwf Hall.
  - by exists st.
  - apply Forall_cons in Hwf as [Hf Hrest]. simpl.
    rewrite (loop_body_unchanged r execute st f Hf); simpl.
    2: { apply Hall. by left. }
    destruct (IH (advance r st) Hrest) as (st' & Hrun & Hr & Hd & Hw).
    { intros g fs c Hg. apply Hall. by right. }
    exists st'. by rewrite Hrun, Hr, Hd, Hw, advance_renames, advance_disk,
      advance_warnings.
Qed.

(** In a dry run the file at position [i] is named with the counter
    advanced [i] times, and its entry is in the list whenever the new
    path differs from the old one. *)
Lemma run_loop_dry_entry r st files st' (i : nat) f nm :
  run_loop r false st files = Ok st' ->
  files !! i = Some f ->
  new_name_at r (disk st) (counter_after r (counter st) i) f = Ok nm ->
  target f nm <> f ->
  (f, target f nm) ∈ renames st'.
Proof.
  revert st i. induction files as [|g rest IH]; intros st i Hrun Hi Hnm Hdiff;
    [done|].
  apply run_loop_cons in Hrun as (st1 & H1 & H2).
  destruct i as [|i]; simpl in Hi.
  - simplify_eq. rewrite counter_after_0 in Hnm.
    rewrite (loop_body_dry _ _ _ _ Hnm Hdiff) in H1. simplify_eq.
    apply run_loop_renames_grow in H2 as (extra & ->).
    rewrite advance_renames. simpl. set_solver.
  - apply loop_body_dry_frame in H1 as (D1 & _ & C1).
    eapply IH; [exact H2 | exact Hi | | done].
    by rewrite D1, C1, counter_after_S.
Qed.

(** What [rename] does to the map. *)
Lemma rename_Ok fs src dst fs' :
  rename fs src dst = Ok fs' ->
  exists n, fs !! src = Some n /\ fs' = <[dst := n]> (delete src fs).
Proof.
  unfold rename. destruct (fs !! src) as [n|]; [|done].
  destruct (is_dir fs (parent dst)); [|by destruct (path_exists _ _)].
  intros H. simplify_eq. by exists n.
Qed.

Lemma rename_into_directory fs src dst n :
  fs !! src = Some n -> is_dir fs (parent dst) = true ->
  rename fs src dst = Ok (<[dst := n]> (delete src fs)).
Proof. intros Hsrc Hdir. unfold rename. by rewrite Hsrc, Hdir. Qed.

Lemma path_exists_lookup fs fs' p q :
  fs' !! q = fs !! p -> path_exists fs' q = path_exists fs p.
Proof. intros H. unfold path_exists, file_type. by rewrite H. Qed.

Lemma path_exists_Some fs p :
  path_exists fs p = true -> exists n, fs !! p = Some n.
Proof.
  unfold path_exists, file_type. intros H.
  apply bool_decide_eq_true in H as [t Ht].
  destruct (fs !! p) as [n|]; [by exists n | done].
Qed.

(** An iteration on another file leaves an existing path where it is. *)
Lemma loop_body_keeps r execute st f st' g :
  g <> f -> path_exists (disk st) g = true ->
  loop_body r execute st f = Ok st' ->
  disk st' !! g = disk st !! g.
Proof.
  intros Hgf Hg H. apply loop_body_outcome in H.
  destruct H as [nm ? ?|nm ? ? ?|nm ? ? ? ?|nm fs' ? ? ? Hex Hren];
    rewrite ?advance_disk; simpl; try done.
  apply rename_Ok in Hren as (n & _ & ->).
  rewrite lookup_insert_ne, lookup_delete_ne; [done | done |].
  intros <-. by rewrite Hg in Hex.
Qed.

Lemma run_loop_keeps r execute st files st' g :
  g ∉ files -> path_exists (disk st) g = true ->
  run_loop r execute st files = Ok st' ->
  disk st' !! g = disk st !! g.
Proof.
  revert st. induction files as [|f rest IH]; intros st Hg Hex H.
  - simpl in H. by simplify_eq.
  - apply run_loop_cons in H as (st1 & H1 & H2).
    apply not_elem_of_cons in Hg as [Hgf Hrest].
    pose proof (loop_body_keeps _ _ _ _ _ _ Hgf Hex H1) as Hkeep.
    rewrite <- Hkeep. apply IH; [done | | done].
    by rewrite (path_exists_lookup _ _ g g Hkeep).
Qed.

(** What [main] prints for an entry of the list. *)
Lemma report_entry (root_path : Path) (execute : bool)
    (renamed : list (Path * Path)) (old new : Path) :
  (old, new) ∈ renamed ->
  let out := report root_path execute renamed in
  to_string (relative_to_or_self old root_path) ∈ out /\
  ("  -> " +:+ name new) ∈ out /\
  ("Total: " +:+ str_of_int (Z.of_nat (length renamed)) +:+ " file(s)") ∈ out /\
  head out = Some (newline +:+ (if execute then "RENAMED"
                                else "PREVIEW (use --execute to apply)")).
Proof.
  intros Hin. unfold report.
  destruct renamed as [|e l] eqn:E; [by apply elem_of_nil in Hin|].
  rewrite <- E in *. clear E e l.
  assert (Hlines : forall x,
            x ∈ [to_string (relative_to_or_self old root_path);
                 "  -> " +:+ name new; ""] ->
            x ∈ concat (map (fun e : Path * Path =>
                   [to_string (relative_to_or_self (fst e) root_path);
                    "  -> " +:+ name (snd e); ""]) renamed)).
  { intros x Hx. apply list_elem_of_In, in_concat.
    eexists. split; [|apply list_elem_of_In; exact Hx].
    apply in_map_iff. exists (old, new). split; [done|].
    by apply list_elem_of_In. }
  cbv zeta. repeat split.
  - rewrite !elem_of_app. right. left. apply Hlines. set_solver.
  - rewrite !elem_of_app. right. left. apply Hlines. set_solver.
  - rewrite !elem_of_app. right. right. left. set_solver.
Qed.

(** The warnings only grow, and the counter is behind the number of files
    by exactly the number of files skipped on a conflict. *)
Lemma loop_body_counter r execute st f st' :
  loop_body r execute st f = Ok st' ->
  (warnings st' = warnings st /\
   counter st' = counter_after r (counter st) 1) \/
  (execute = true /\ counter st' = counter st /\
   exists w, warnings st' = warnings st ++ [w]).
Proof.
  intros H. apply loop_body_outcome in H.
  destruct H; rewrite ?advance_warnings, ?advance_counter; simpl; eauto.
Qed.

Lemma run_loop_warnings_grow r execute st files st' :
  run_loop r execute st files = Ok st' ->
  exists extra, warnings st' = warnings st ++ extra.
Proof.
  revert st. induction files as [|f rest IH]; intros st H.
  - simpl in H. simplify_eq. exists []. by rewrite app_nil_r.
  - apply run_loop_cons in H as (st1 & H1 & H2).
    apply IH in H2 as (e2 & ->).
    apply loop_body_counter in H1 as [[-> _] | (_ & _ & w & ->)].
    + by exists e2.
    + exists (w :: e2). by rewrite <- app_assoc.
Qed.

Lemma run_loop_counter_law r execute st files st' :
  numbering r = true ->
  run_loop r execute st files = Ok st' ->
  counter st' + Z.of_nat (length (warnings st'))
  = counter st + Z.of_nat (length files) + Z.of_nat (length (warnings st)).
Proof.
  intros Hnum. revert st. induction files as [|f rest IH]; intros st H.
  - simpl in H. simplify_eq. simpl. lia.
  - apply run_loop_cons in H as (st1 & H1 & H2).
    apply IH in H2. rewrite H2. simpl length.
    apply loop_body_counter in H1 as [[-> ->] | (_ & -> & w & ->)].
    + unfold counter_after. rewrite Hnum. lia.
    + rewrite length_app. simpl. lia.
Qed.

(** The name of a file depends on the file system through the entry of
    that file only. *)
Lemma new_name_at_lookup r fs fs' c f :
  fs' !! f = fs !! f -> new_name_at r fs' c f = new_name_at r fs c f.
Proof.
  intros H. unfold new_name_at, generate_new_name, get_file_date, stat.
  by rewrite H.
Qed.

(** A run in execute mode that meets no conflict, or that does not
    number, returns the list the dry run returns. *)
Lemma run_loop_execute_agrees r files :
  forall st_e st_d st_e' st_d',
    NoDup files ->
    (forall g, g ∈ files ->
       path_exists (disk st_d) g = true /\ disk st_e !! g = disk st_d !! g) ->
    renames st_e = renames st_d ->
    counter st_e = counter st_d ->
    run_loop r true st_e files = Ok st_e' ->
    run_loop r false st_d files = Ok st_d' ->
    numbering r = false \/ warnings st_e' = warnings st_e ->
    renames st_e' = renames st_d'.
Proof.
  induction files as [|f rest IH];
    intros st_e st_d st_e' st_d' Hnodup Hfiles Hren Hcnt He Hd Hquiet.
  { simpl in He, Hd. by simplify_eq. }
  apply NoDup_cons in Hnodup as [Hf Hnodup].
  apply run_loop_cons in He as (s_e & He1 & He2).
  apply run_loop_cons in Hd as (s_d & Hd1 & Hd2).
  destruct (Hfiles f ltac:(by left)) as [Hfex Hflook].
  assert (Hname : new_name_at r (disk st_e) (counter st_e) f
                  = new_name_at r (disk st_d) (counter st_d) f).
  { rewrite Hcnt. by apply new_name_at_lookup. }
  assert (Hrest : forall g, g ∈ rest ->
            path_exists (disk st_d) g = true /\
            disk st_e !! g = disk st_d !! g /\ g <> f).
  { intros g Hg. destruct (Hfiles g ltac:(by right)) as [? ?].
    repeat split; [done..|]. by intros ->. }
  apply loop_body_outcome in He1.
  destruct He1 as [nm Hnm Hsame|nm ? ? Hfalse|nm Hnm Hdiff _ Hex
                  |nm fs' Hnm Hdiff _ Hex Hrename]; [| done | |].
  - rewrite Hname in Hnm.
    rewrite (loop_body_same _ _ _ _ _ Hnm Hsame) in Hd1. simplify_eq.
    apply (IH (advance r st_e) (advance r st_d)); try done.
    + intros g Hg. rewrite !advance_disk.
      destruct (Hrest g Hg) as (? & ? & _). done.
    + by rewrite !advance_renames.
    + by rewrite !advance_counter, Hcnt.
    + by rewrite advance_warnings.
  - destruct Hquiet as [Hnum | Hquiet].
    2: { apply run_loop_warnings_grow in He2 as (extra & Hgrow).
         simpl in Hgrow. rewrite Hquiet in Hgrow.
         apply (f_equal length) in Hgrow.
         rewrite !length_app in Hgrow. simpl in Hgrow. lia. }
    rewrite Hname in Hnm.
    rewrite (loop_body_dry _ _ _ _ Hnm Hdiff) in Hd1. simplify_eq.
    apply (IH (skipped st_e f nm) (advance r (planned st_d f (target f nm))));
      try done; [| | | by left].
    + intros g Hg. rewrite advance_disk. simpl.
      destruct (Hrest g Hg) as (? & ? & _). done.
    + rewrite advance_renames. simpl. by rewrite Hren.
    + unfold advance. rewrite Hnum. simpl. done.
  - rewrite Hname in Hnm.
    rewrite (loop_body_dry _ _ _ _ Hnm Hdiff) in Hd1. simplify_eq.
    apply rename_Ok in Hrename as (n & _ & ->).
    apply (IH (advance r (renamed st_e (<[target f nm := n]>
                                          (delete f (disk st_e)))
                            f (target f nm)))
              (advance r (planned st_d f (target f nm)))); try done.
    + intros g Hg. rewrite !advance_disk. simpl.
      destruct (Hrest g Hg) as (Hgex & Hglook & Hgf). split; [done|].
      rewrite lookup_insert_ne, lookup_delete_ne; [done | done |].
      intros <-.
      rewrite (path_exists_lookup _ _ _ _ Hglook) in Hex.
      by rewrite Hgex in Hex.
    + rewrite !advance_renames. simpl. by rewrite Hren.
    + rewrite !advance_counter. simpl. by rewrite Hcnt.
    + destruct Hquiet as [? | Hquiet]; [by left|]. right.
      by rewrite advance_warnings.
Qed.

End WithRuntime.
End LoopFacts.

(* ===================================================================== *)
(** ** Properties of rename_files *)
(* ===================================================================== *)

Module Properties.
Import Text TextFacts PurePath PurePathFacts FileSys Renamer GeneratorFacts.
Import LoopFacts Posix Examples.

Lemma rename_files_run_Ok `{RT : Runtime} (fs : gmap Path Node)
    (root_path : Path) (r : Rule) (execute : bool) (st' : LoopState) :
  rename_files_run fs root_path r execute = Ok st' ->
  exists files,
    collect_files fs root_path (file_pattern r) (recursive r) = Ok files /\
    run_loop r execute (initial_state r fs) files = Ok st'.
Proof. unfold rename_files_run. apply bind_Ok. Qed.

Lemma rename_files_Ok `{RT : Runtime} (fs : gmap Path Node)
    (root_path : Path) (r : Rule) (execute : bool)
    (plan : list (Path * Path)) :
  rename_files fs root_path r execute = Ok plan ->
  exists st', rename_files_run fs root_path r execute = Ok st' /\
              plan = renames st'.
Proof.
  unfold rename_files. intros H. apply bind_Ok in H as (st' & Hrun & H).
  exists st'. by simplify_eq.
Qed.

(** C3, as amended.  Every entry of the list [rename_files] returns pairs
    a file with a path different from it; that path is the file's parent
    directory joined with the name the generator gave the file, and its
    parent directory is the file's parent directory whenever that name is
    a single path component (it contains no [/] and is neither empty nor
    [.]). *)
Theorem plan_entries_differ_and_keep_directory `{RT : Runtime}
    (fs : gmap Path Node) (root_path : Path) (r : Rule) (execute : bool)
    (plan : list (Path * Path)) :
  rename_files fs root_path r execute = Ok plan ->
  forall old new : Path, (old, new) ∈ plan ->
    new <> old /\
    exists fs' c nm,
      new_name_at r fs' c old = Ok nm /\
      new = joinpath (parent old) nm /\
      (is_part nm = true -> parent new = parent old).
Proof.
  intros H old new Hin.
  apply rename_files_Ok in H as (st' & Hrun & ->).
  apply rename_files_run_Ok in Hrun as (files & _ & Hloop).
  assert (Hall : Forall (entry_ok r) (renames st')).
  { eapply run_loop_entries; [|exact Hloop]. by constructor. }
  rewrite Forall_forall in Hall.
  destruct (Hall _ Hin) as [Hdiff (fs' & c & nm & Hnm & Hnew)].
  simpl in *. split; [done|]. exists fs', c, nm.
  repeat split; [done..|]. intros Hpart. rewrite Hnew.
  by apply parent_joinpath_part.
Qed.

Lemma plan_entries_differ_and_keep_directory_witness :
  a_001_txt <> a_txt /\
  exists fs' c nm,
    new_name_at (RT := rt) rule_append_number fs' c a_txt = Ok nm /\
    a_001_txt = joinpath (parent a_txt) nm /\
    (is_part nm = true -> parent a_001_txt = parent a_txt).
Proof.
  apply (plan_entries_differ_and_keep_directory (RT := rt)
           tree_numbered r_dir rule_append_number false
           [(a_txt, a_001_txt);
            (a_001_txt, of_string "/r/a_001_002.txt")]).
  - vm_compute. reflexivity.
  - apply list_elem_of_here.
Defined.

(** With the prefix [x/] the file [/r/a.txt] is renamed to [/r/x/a.txt]:
    the entry of the list has another parent directory, and in execute
    mode the file is moved there. *)
Lemma prefix_with_separator_leaves_directory :
  rename_files (RT := rt) tree_subdir r_dir rule_prefix_dir true
    = Ok [(a_txt, of_string "/r/x/a.txt")] /\
  parent (of_string "/r/x/a.txt") <> parent a_txt /\
  (exists st, rename_files_run (RT := rt) tree_subdir r_dir rule_prefix_dir
                true = Ok st /\
              is_file (disk st) (of_string "/r/x/a.txt") = true /\
              path_exists (disk st) a_txt = false).
Proof.
  split; [by vm_compute|]. split; [by vm_compute|].
  eexists. split; [reflexivity|]. by vm_compute.
Qed.

(** C6.  A file whose stem the rule does not change (in particular when
    no option is configured, and when the search pattern matches nothing,
    so that the substitution returns the stem as it is) is given exactly
    its original name; its new path equals its path, the iteration adds
    no entry to the list and touches neither the file system nor the
    warnings, and a run over such files returns the empty list. *)
Theorem unchanged_stem_is_excluded `{RT : Runtime} (r : Rule) :
  (forall (execute : bool) (st : LoopState) (f : Path),
      wf_path f ->
      new_stem_at r (disk st) (counter st) f = Ok (stem f) ->
      new_name_at r (disk st) (counter st) f = Ok (name f) /\
      joinpath (parent f) (name f) = f /\
      loop_body r execute st f = Ok (advance r st) /\
      renames (advance r st) = renames st /\
      disk (advance r st) = disk st /\
      warnings (advance r st) = warnings st) /\
  (forall (fs : gmap Path Node) (c : Z) (f : Path),
      prefix r = "" -> suffix r = "" -> numbering r = false ->
      (date_type r = None \/ date_type r = Some "") ->
      (search r = None \/ replace r = None \/
       exists pat repl, search r = Some pat /\ replace r = Some repl /\
                        re_sub pat repl (stem f) = Ok (stem f)) ->
      new_stem_at r fs c f = Ok (stem f)) /\
  (forall (execute : bool) (fs : gmap Path Node) (root_path : Path)
          (files : list Path),
      collect_files fs root_path (file_pattern r) (recursive r) = Ok files ->
      Forall wf_path files ->
      (forall f fs' c, f ∈ files -> new_stem_at r fs' c f = Ok (stem f)) ->
      rename_files fs root_path r execute = Ok []).
Proof.
  repeat split.
  - by apply new_name_unchanged.
  - by apply joinpath_parent_name.
  - by apply loop_body_unchanged.
  - apply advance_renames.
  - apply advance_disk.
  - apply advance_warnings.
  - intros fs c f Hp Hs Hn Hd Hsearch.
    apply new_stem_no_option; try done. unfold step_search.
    destruct Hsearch as [-> | [-> | (pat & repl & -> & -> & Hsub)]];
      [done | by destruct (search r) | done].
  - intros execute fs root_path files Hfiles Hwf Hall.
    unfold rename_files, rename_files_run. rewrite Hfiles. simpl.
    destruct (run_loop_all_unchanged r execute (initial_state r fs) files
                Hwf Hall) as (st' & -> & Hr & _).
    simpl. by rewrite Hr.
Qed.

Lemma unchanged_stem_is_excluded_witness :
  (new_name_at (RT := rt) rule_no_match tree_numbered 1 a_txt = Ok "a.txt" /\
   joinpath (parent a_txt) "a.txt" = a_txt /\
   loop_body (RT := rt) rule_no_match true
     (initial_state rule_no_match tree_numbered) a_txt
   = Ok (advance rule_no_match (initial_state rule_no_match tree_numbered))) /\
  new_stem_at (RT := rt) rule_no_match tree_numbered 1 a_txt = Ok "a" /\
  rename_files (RT := rt) tree_numbered r_dir rule_no_match true = Ok [].
Proof.
  destruct (unchanged_stem_is_excluded (RT := rt) rule_no_match)
    as (Hstep & Hstem & Hrun).
  split; [|split].
  - destruct (Hstep true (initial_state rule_no_match tree_numbered) a_txt)
      as (H1 & H2 & H3 & _); [apply wf_of_string | by vm_compute | done].
  - apply (Hstem tree_numbered 1 a_txt); try reflexivity; [by left|].
    right. right. exists "zzz", "y". by vm_compute.
  - apply (Hrun true tree_numbered r_dir [a_txt; a_001_txt]).
    + by vm_compute.
    + repeat constructor; apply wf_of_string.
    + intros f fs' c Hf.
      apply (Hstem fs' c f); try reflexivity; [by left|].
      right. right. exists "zzz", "y".
      apply elem_of_cons in Hf as [-> | Hf]; [by vm_compute|].
      apply elem_of_cons in Hf as [-> | Hf]; [by vm_compute|].
      by apply elem_of_nil in Hf.
Defined.

(** C9.  A dry run detects no conflict: it records no warning and leaves
    the file system as it is, whatever exists there; and when the rule
    maps two collected files to one destination, the list it returns has
    an entry for each of them with that same new path. *)
Theorem dry_run_detects_no_conflict `{RT : Runtime}
    (fs : gmap Path Node) (root_path : Path) (r : Rule)
    (files : list Path) (st' : LoopState) :
  collect_files fs root_path (file_pattern r) (recursive r) = Ok files ->
  rename_files_run fs root_path r false = Ok st' ->
  warnings st' = [] /\ disk st' = fs /\
  (forall (i : nat) (f : Path) (nm : string),
      files !! i = Some f ->
      new_name_at r fs (counter_after r (number_start r) i) f = Ok nm ->
      joinpath (parent f) nm <> f ->
      (f, joinpath (parent f) nm) ∈ renames st') /\
  (forall (i j : nat) (f1 f2 : Path) (nm1 nm2 : string),
      files !! i = Some f1 -> files !! j = Some f2 ->
      new_name_at r fs (counter_after r (number_start r) i) f1 = Ok nm1 ->
      new_name_at r fs (counter_after r (number_start r) j) f2 = Ok nm2 ->
      joinpath (parent f2) nm2 = joinpath (parent f1) nm1 ->
      joinpath (parent f1) nm1 <> f1 -> joinpath (parent f1) nm1 <> f2 ->
      (f1, joinpath (parent f1) nm1) ∈ renames st' /\
      (f2, joinpath (parent f1) nm1) ∈ renames st').
Proof.
  intros Hfiles Hrun. unfold rename_files_run in Hrun.
  rewrite Hfiles in Hrun. simpl in Hrun.
  destruct (run_loop_dry_frame _ _ _ _ Hrun) as (Hd & Hw & _).
  assert (Hentry : forall (i : nat) (f : Path) (nm : string),
      files !! i = Some f ->
      new_name_at r fs (counter_after r (number_start r) i) f = Ok nm ->
      joinpath (parent f) nm <> f ->
      (f, joinpath (parent f) nm) ∈ renames st').
  { intros i f nm Hi Hnm Hdiff.
    by apply (run_loop_dry_entry r (initial_state r fs) files st' i f nm). }
  repeat split; [done | done | done | |].
  - by eapply Hentry.
  - intros. rewrite <- H3. eapply Hentry; [done | done |]. by rewrite H3.
Qed.

Lemma dry_run_detects_no_conflict_witness :
  warnings (state_after tree_merge rule_strip_a false) = [] /\
  (aab_txt, of_string "/r/b.txt")
    ∈ renames (state_after tree_merge rule_strip_a false) /\
  (ab_txt, of_string "/r/b.txt")
    ∈ renames (state_after tree_merge rule_strip_a false).
Proof.
  destruct (dry_run_detects_no_conflict (RT := rt) tree_merge r_dir
              rule_strip_a [aab_txt; ab_txt]
              (state_after tree_merge rule_strip_a false))
    as (Hw & _ & _ & Hboth); [by vm_compute | by vm_compute |].
  split; [done|].
  apply (Hboth 0%nat 1%nat aab_txt ab_txt "b.txt" "b.txt");
    by vm_compute.
Defined.








(** C1.  On the directory holding [a.txt] and [a_001.txt], numbering in
    append mode from 1: in execute mode the first file is skipped because
    [a_001.txt] exists, and the counter is not advanced for it, so the
    second file is given the number 1 again and the counter ends at 2
    after two files; the dry run on the same directory advances the
    counter for both files and ends at 3. *)
Theorem counter_not_advanced_after_conflict :
  collect_files (RT := rt) tree_numbered r_dir "*" false
    = Ok [a_txt; a_001_txt] /\
  loop_body (RT := rt) rule_append_number true
    (initial_state rule_append_number tree_numbered) a_txt
    = Ok (skipped (initial_state rule_append_number tree_numbered)
            a_txt "a_001.txt") /\
  counter (skipped (initial_state rule_append_number tree_numbered)
             a_txt "a_001.txt") = 1 /\
  counter (state_after tree_numbered rule_append_number true) = 2 /\
  renames (state_after tree_numbered rule_append_number true)
    = [(a_txt, a_001_txt); (a_001_txt, of_string "/r/a_001_001.txt")] /\
  counter (state_after tree_numbered rule_append_number false) = 3 /\
  renames (state_after tree_numbered rule_append_number false)
    = [(a_txt, a_001_txt); (a_001_txt, of_string "/r/a_001_002.txt")].
Proof. repeat split; by vm_compute. Qed.

(** C5.  On the same directory and rule the dry run and the run in execute
    mode return different lists: the dry run announces [a_001_002.txt]
    for the second file, the run in execute mode renames it to
    [a_001_001.txt]. *)
Theorem dry_run_and_execute_plans_differ :
  rename_files (RT := rt) tree_numbered r_dir rule_append_number false
    = Ok [(a_txt, a_001_txt); (a_001_txt, of_string "/r/a_001_002.txt")] /\
  rename_files (RT := rt) tree_numbered r_dir rule_append_number true
    = Ok [(a_txt, a_001_txt); (a_001_txt, of_string "/r/a_001_001.txt")] /\
  rename_files (RT := rt) tree_numbered r_dir rule_append_number false
    <> rename_files (RT := rt) tree_numbered r_dir rule_append_number true.
Proof. repeat split; by vm_compute. Qed.

(** A run in execute mode returns the list of the dry run when it does
    not number or ends without a warning. *)
Lemma execute_matches_dry_run_without_conflict `{RT : Runtime}
    (fs : gmap Path Node) (root_path : Path) (r : Rule)
    (files : list Path) (st_e st_d : LoopState) :
  collect_files fs root_path (file_pattern r) (recursive r) = Ok files ->
  NoDup files ->
  (forall g, g ∈ files -> path_exists fs g = true) ->
  rename_files_run fs root_path r true = Ok st_e ->
  rename_files_run fs root_path r false = Ok st_d ->
  numbering r = false \/ warnings st_e = [] ->
  renames st_e = renames st_d.
Proof.
  intros Hfiles Hnodup Hex He Hd Hquiet.
  unfold rename_files_run in He, Hd. rewrite Hfiles in He, Hd.
  simpl in He, Hd.
  apply (run_loop_execute_agrees r files (initial_state r fs)
           (initial_state r fs) st_e st_d); try done.
  intros g Hg. split; [by apply Hex | done].
Qed.

(** With numbering, after a run the counter is the start value plus the
    number of files minus the number of files skipped on a conflict. *)
Lemma counter_after_run `{RT : Runtime}
    (fs : gmap Path Node) (root_path : Path) (r : Rule) (execute : bool)
    (files : list Path) (st' : LoopState) :
  numbering r = true ->
  collect_files fs root_path (file_pattern r) (recursive r) = Ok files ->
  rename_files_run fs root_path r execute = Ok st' ->
  counter st' = number_start r + Z.of_nat (length files)
                - Z.of_nat (length (warnings st')).
Proof.
  intros Hnum Hfiles Hrun. unfold rename_files_run in Hrun.
  rewrite Hfiles in Hrun. simpl in Hrun.
  apply (run_loop_counter_law r execute _ _ _ Hnum) in Hrun.
  simpl in Hrun. lia.
Qed.

(** The examples of the specification. *)
Example sequential_numbering_from_5 :
  rename_files (RT := rt) tree_abc r_dir rule_sequential_5 false
  = Ok [(of_string "/r/a.txt", of_string "/r/05.txt");
        (of_string "/r/b.txt", of_string "/r/06.txt");
        (of_string "/r/c.txt", of_string "/r/07.txt")].
Proof. by vm_compute. Qed.

Example append_numbering_with_prefix :
  rename_files (RT := rt) tree_abc r_dir rule_img_append false
  = Ok [(of_string "/r/a.txt", of_string "/r/img_a_001.txt");
        (of_string "/r/b.txt", of_string "/r/img_b_002.txt");
        (of_string "/r/c.txt", of_string "/r/img_c_003.txt")].
Proof. by vm_compute. Qed.

Example search_and_replace_draft :
  generate_new_name (RT := rt) tree_abc (of_string "/r/draft_report.docx")
    "" "" (Some "draft") (Some "final") None "append" 3 None "prefix"
  = Ok "final_report.docx".
Proof. by vm_compute. Qed.

Example modification_date_as_suffix :
  new_name_at (RT := rt) rule_date_suffix tree_abc 1 (of_string "/r/a.txt")
  = Ok "a_20240305.txt".
Proof. by vm_compute. Qed.

Example prefix_applied_twice_is_doubled :
  generate_new_name (RT := rt) tree_abc (of_string "/r/img_a.txt")
    "img_" "" None None None "append" 3 None "prefix"
  = Ok "img_img_a.txt".
Proof. by vm_compute. Qed.

End Properties.

(* ===================================================================== *)
(** ** Reading the number back *)
(* ===================================================================== *)

Module NumberFacts.
Import Text TextFacts PurePath PurePathFacts FileSys Renamer GeneratorFacts Cli.

Lemma uint_of_string_zeros (k : nat) (s : string) :
  NilEmpty.uint_of_string (repeat_char "0" k +:+ s)
  = option_map (Nat.iter k Decimal.D0) (NilEmpty.uint_of_string s).
Proof.
  induction k as [|k IH].
  - rewrite append_nil_l. simpl. by destruct (NilEmpty.uint_of_string s).
  - simpl repeat_char. rewrite append_cons. simpl NilEmpty.uint_of_string.
    rewrite IH. by destruct (NilEmpty.uint_of_string s).
Qed.

Lemma of_uint_zeros (k : nat) (d : Decimal.uint) :
  Z.of_uint (Nat.iter k Decimal.D0 d) = Z.of_uint d.
Proof. induction k as [|k IH]; [done|]. simpl. exact IH. Qed.

Lemma string_of_uint_head (d : Decimal.uint) :
  d <> Decimal.Nil ->
  exists c rest, NilEmpty.string_of_uint d = String c rest /\
                 Ascii.eqb c "-" = false /\ is_sign c = false.
Proof. intros Hd. destruct d; try done; by eexists _, _. Qed.

Lemma int_of_string_zeros_pos (k : nat) (d : Decimal.uint) :
  d <> Decimal.Nil ->
  NilZero.int_of_string (repeat_char "0" k +:+ NilEmpty.string_of_uint d)
  = Some (Decimal.Pos (Nat.iter k Decimal.D0 d)).
Proof.
  intros Hd. destruct (string_of_uint_head d Hd) as (c & rest & Hs & Hc & _).
  pose proof (uint_of_string_zeros k (NilEmpty.string_of_uint d)) as Hz.
  rewrite NilEmpty.usu in Hz. simpl in Hz.
  destruct k as [|k].
  - rewrite append_nil_l in *. rewrite Hs in *.
    unfold NilZero.int_of_string. rewrite Hc.
    unfold NilZero.uint_of_string. by rewrite Hz.
  - simpl repeat_char in *. rewrite append_cons in *.
    unfold NilZero.int_of_string.
    change (Ascii.eqb "0" "-") with false. cbv iota.
    unfold NilZero.uint_of_string. by rewrite Hz.
Qed.

Lemma uint_of_string_zeros_nonempty (k : nat) (d : Decimal.uint) :
  d <> Decimal.Nil ->
  NilZero.uint_of_string (repeat_char "0" k +:+ NilEmpty.string_of_uint d)
  = Some (Nat.iter k Decimal.D0 d).
Proof.
  intros Hd. destruct (string_of_uint_head d Hd) as (c & rest & Hs & _).
  pose proof (uint_of_string_zeros k (NilEmpty.string_of_uint d)) as Hz.
  rewrite NilEmpty.usu in Hz. simpl in Hz.
  destruct k as [|k].
  - rewrite append_nil_l in *. rewrite Hs in *. exact Hz.
  - simpl repeat_char in *. rewrite append_cons in *. exact Hz.
Qed.

Lemma nilzero_string_of_uint (d : Decimal.uint) :
  d <> Decimal.Nil -> NilZero.string_of_uint d = NilEmpty.string_of_uint d.
Proof. by destruct d. Qed.

(** The padded number reads back as the counter. *)
Lemma int_of_str_zfill (n w : Z) :
  int_of_str (zfill (str_of_int n) w) = Some n.
Proof.
  unfold int_of_str.
  assert (Hcases : exists d, d <> Decimal.Nil /\
            ((0 <= n /\ Z.to_int n = Decimal.Pos d) \/
             (n < 0 /\ Z.to_int n = Decimal.Neg d))).
  { destruct n as [|p|p]; simpl.
    - exists Decimal.zero. split; [done|]. left. split; [lia | done].
    - exists (Pos.to_uint p). split; [apply Unsigned.to_uint_nonnil|].
      left. split; [lia | done].
    - exists (Pos.to_uint p). split; [apply Unsigned.to_uint_nonnil|].
      right. split; [lia | done]. }
  destruct Hcases as (d & Hd & [[Hn Hint] | [Hn Hint]]).
  - assert (Hstr : str_of_int n = NilEmpty.string_of_uint d).
    { unfold str_of_int. rewrite Hint. simpl.
      by apply nilzero_string_of_uint. }
    destruct (string_of_uint_head d Hd) as (c & rest & Hs & _ & Hc).
    rewrite Hstr, Hs, (zfill_unsigned c rest w Hc), <- Hs. unfold lpad.
    rewrite (int_of_string_zeros_pos _ d Hd). simpl.
    rewrite of_uint_zeros. f_equal.
    rewrite <- (DecimalZ.of_to n), Hint. done.
  - assert (Hstr : str_of_int n = String "-" (NilEmpty.string_of_uint d)).
    { unfold str_of_int. rewrite Hint. simpl.
      by rewrite nilzero_string_of_uint. }
    rewrite Hstr, (zfill_signed "-" _ w eq_refl). unfold lpad.
    unfold NilZero.int_of_string.
    change (Ascii.eqb "-" "-") with true. cbv iota.
    rewrite (uint_of_string_zeros_nonempty _ d Hd). simpl.
    rewrite of_uint_zeros. f_equal.
    rewrite <- (DecimalZ.of_to n), Hint. done.
Qed.

End NumberFacts.

(* ===================================================================== *)
(** ** Facts about names and extensions *)
(* ===================================================================== *)

Module NameFacts.
Import Text TextFacts PurePath PurePathFacts FileSys Renamer GeneratorFacts Cli.
Import LoopFacts Posix Examples NumberFacts.

Lemma take_str_app (s e : string) : take_str (String.length s) (s +:+ e) = s.
Proof.
  induction s as [|a s IH]; [by destruct e|].
  rewrite append_cons. simpl. by rewrite IH.
Qed.

Lemma drop_str_app (s e : string) : drop_str (String.length s) (s +:+ e) = e.
Proof.
  induction s as [|a s IH]; [by destruct e|].
  rewrite append_cons. simpl. exact IH.
Qed.

Lemma append_cancel_r (s1 s2 e : string) : s1 +:+ e = s2 +:+ e -> s1 = s2.
Proof.
  intros H.
  assert (Hlen : String.length s1 = String.length s2).
  { apply (f_equal String.length) in H. rewrite !length_append in H. lia. }
  rewrite <- (take_str_app s1 e), H, Hlen. apply take_str_app.
Qed.

(** [rfind] finds a position after which the character does not occur. *)
Lemma rfind_Some (c : ascii) (s : string) (i : nat) :
  rfind c s = Some i ->
  exists e, drop_str i s = String c e /\ contains_char c e = false /\
            (i < String.length s)%nat.
Proof.
  revert i. induction s as [|a s IH]; intros i; simpl; [done|].
  destruct (rfind c s) as [j|] eqn:Hj.
  - intros [= <-]. destruct (IH j eq_refl) as (e & He & Hc & Hlt).
    exists e. simpl. repeat split; [done | done | lia].
  - destruct (decide (a = c)) as [->|]; [|done]. intros [= <-].
    exists s. simpl. repeat split; [|lia].
    clear IH. induction s as [|b s IHs]; [done|]. simpl in *.
    destruct (rfind c s); [done|].
    destruct (decide (b = c)); [done|].
    rewrite IHs by done. rewrite orb_false_r. by apply bool_decide_eq_false.
Qed.

Lemma rfind_None (c : ascii) (e : string) :
  contains_char c e = false -> rfind c e = None.
Proof.
  induction e as [|a e IH]; simpl; [done|]. intros H.
  apply orb_false_iff in H as [Ha He]. apply bool_decide_eq_false in Ha.
  rewrite (IH He). by destruct (decide (a = c)).
Qed.

Lemma rfind_app (c : ascii) (s e : string) :
  contains_char c e = false ->
  rfind c (s +:+ String c e) = Some (String.length s).
Proof.
  intros He. induction s as [|a s IH].
  - rewrite append_nil_l. simpl. rewrite (rfind_None c e He).
    by destruct (decide (c = c)).
  - rewrite append_cons. simpl. by rewrite IH.
Qed.

(** The extension of a name, when it has one, is a dot followed by at
    least one character and no further dot. *)
Lemma suffix_shape (p : Path) :
  PurePath.suffix p = "" \/
  exists e, PurePath.suffix p = String "." e /\ e <> "" /\
            contains_char "." e = false.
Proof.
  unfold PurePath.suffix, cut_point.
  destruct (rfind "." (name p)) as [i|] eqn:Hi; [|by left].
  destruct ((0 <? i)%nat && (i <? String.length (name p) - 1)%nat) eqn:Hc;
    [|by left].
  right. apply andb_true_iff in Hc as [_ Hlt]. apply Nat.ltb_lt in Hlt.
  destruct (rfind_Some _ _ _ Hi) as (e & He & Hno & _).
  exists e. repeat split; [done | | done]. intros ->.
  pose proof (take_drop i (name p)) as Htd. rewrite He in Htd.
  apply (f_equal String.length) in Htd. rewrite length_append in Htd.
  simpl in Htd.
  assert (String.length (take_str i (name p)) <= i)%nat.
  { clear. revert i. induction (name p) as [|a s IH]; intros [|i]; simpl;
      try lia. specialize (IH i). lia. }
  lia.
Qed.

(** A name made of a stem that is not empty and an extension has that
    stem and that extension. *)
Lemma cut_point_app (s e : string) :
  s <> "" -> e <> "" -> contains_char "." e = false ->
  cut_point (s +:+ String "." e) = Some (String.length s).
Proof.
  intros Hs He Hno. unfold cut_point. rewrite (rfind_app _ _ _ Hno).
  rewrite length_append. simpl.
  destruct s as [|a s]; [done|]. destruct e as [|b e]; [done|]. simpl.
  replace (0 <? S (String.length s))%nat with true
    by (symmetry; apply Nat.ltb_lt; lia).
  replace (S (String.length s)
           <? String.length s + S (S (String.length e)) - 0)%nat with true
    by (symmetry; apply Nat.ltb_lt; lia).
  done.
Qed.

Lemma cut_point_dotfile (e : string) :
  contains_char "." e = false -> cut_point (String "." e) = None.
Proof.
  intros Hno. unfold cut_point.
  pose proof (rfind_app "." "" e Hno) as H. rewrite append_nil_l in H.
  by rewrite H.
Qed.

End NameFacts.

(* ===================================================================== *)
(** ** Further properties of the name generator and the progress bar *)
(* ===================================================================== *)

Module GeneratorProperties.
Import Text TextFacts PurePath PurePathFacts FileSys Renamer GeneratorFacts Cli.
Import LoopFacts Posix Examples NumberFacts NameFacts.



(** X4.  The extension survives in the new name as an extension: when the
    file has an extension and the new stem is not empty, every path
    whose name is the generated name has the new stem as its stem and the
    original extension as its suffix.  When the new stem is empty, the
    generated name is the bare extension, a name that starts with a dot
    and has no suffix. *)
Theorem extension_is_preserved `{RT : Runtime}
    (r : Rule) (fs : gmap Path Node) (c : Z) (file_path : Path)
    (new_stem : string) :
  new_stem_at r fs c file_path = Ok new_stem ->
  PurePath.suffix file_path <> "" ->
  new_name_at r fs c file_path
    = Ok (new_stem +:+ PurePath.suffix file_path) /\
  (forall p : Path,
      name p = new_stem +:+ PurePath.suffix file_path ->
      (new_stem <> "" ->
       PurePath.suffix p = PurePath.suffix file_path /\ stem p = new_stem) /\
      (new_stem = "" ->
       PurePath.suffix p = "" /\ stem p = PurePath.suffix file_path)).
Proof.
  intros Hstem Hext. split.
  { rewrite new_name_at_stem, Hstem. done. }
  intros p Hname.
  destruct (suffix_shape file_path) as [?|(e & He & Hne & Hno)]; [done|].
  unfold PurePath.suffix at 1 3, stem. rewrite Hname, He. split.
  - intros Hs. rewrite (cut_point_app new_stem e Hs Hne Hno).
    by rewrite drop_str_app, take_str_app.
  - intros ->. rewrite append_nil_l. by rewrite (cut_point_dotfile e Hno).
Qed.

Lemma extension_is_preserved_witness :
  PurePath.suffix a_001_txt = PurePath.suffix a_txt /\ stem a_001_txt = "a_001".
Proof.
  apply (proj2 (extension_is_preserved (RT := rt) rule_append_number
                  tree_numbered 1 a_txt "a_001" ltac:(by vm_compute)
                  ltac:(by vm_compute)) a_001_txt ltac:(by vm_compute)).
  by vm_compute.
Defined.

(** X5.  The number put into a name reads back as the counter, whatever
    the width: [int] of the padded string is the counter.  So two
    different counters never give the same number string, even with
    different widths. *)
Theorem padded_number_reads_back (n w : Z) :
  int_of_str (zfill (str_of_int n) w) = Some n /\
  (forall m w' : Z,
      zfill (str_of_int m) w' = zfill (str_of_int n) w -> m = n).
Proof.
  split; [apply int_of_str_zfill|].
  intros m w' H. apply (f_equal int_of_str) in H.
  rewrite !int_of_str_zfill in H. by simplify_eq.
Qed.

Lemma padded_number_reads_back_witness :
  int_of_str (zfill (str_of_int (-5)) 3) = Some (-5) /\ 7 = 7.
Proof.
  split.
  - apply (proj1 (padded_number_reads_back (-5) 3)).
  - apply (proj2 (padded_number_reads_back 7 3) 7 3). reflexivity.
Defined.

(** X6.  Sequential numbering separates files: with numbering in mode
    "sequential" and no date, two files with the same extension that are
    named with different counter values get different names. *)
Theorem sequential_names_differ `{RT : Runtime}
    (r : Rule) (fs1 fs2 : gmap Path Node) (c1 c2 : Z) (f1 f2 : Path)
    (nm1 nm2 : string) :
  numbering r = true -> number_mode r = "sequential" ->
  date_type r = None \/ date_type r = Some "" ->
  PurePath.suffix f1 = PurePath.suffix f2 ->
  c1 <> c2 ->
  new_name_at r fs1 c1 f1 = Ok nm1 ->
  new_name_at r fs2 c2 f2 = Ok nm2 ->
  nm1 <> nm2.
Proof.
  intros Hnum Hmode Hdate Hext Hc H1 H2 Heq. apply Hc.
  assert (Hform : forall fs c f nm,
            new_name_at r fs c f = Ok nm ->
            nm = zfill (str_of_int c) (number_padding r)
                 +:+ PurePath.suffix f).
  { intros fs c f nm H. unfold new_name_at in H.
    rewrite generate_new_name_steps, Hnum, Hmode in H.
    destruct (step_search (search r) (replace r) (stem f)); [|done].
    simpl in H.
    assert (Hd : step_date_str fs f (date_type r) = Ok None).
    { unfold step_date_str. by destruct Hdate as [-> | ->]. }
    rewrite Hd in H. simpl in H. by simplify_eq. }
  apply Hform in H1, H2. subst nm1 nm2. rewrite Hext in Heq.
  apply append_cancel_r in Heq.
  apply (f_equal int_of_str) in Heq. rewrite !int_of_str_zfill in Heq.
  by simplify_eq.
Qed.

Lemma sequential_names_differ_witness :
  "05.txt" <> "06.txt".
Proof.
  apply (sequential_names_differ (RT := rt) rule_sequential_5 tree_abc
           tree_abc 5 6 a_txt (of_string "/r/b.txt") "05.txt" "06.txt");
    try reflexivity; try (by vm_compute).
  by left.
Defined.

(** X7.  The progress bar has [max 30 (max filled (30 - filled))]
    characters, where [filled] is [30 * current // total] for a positive
    total and 0 otherwise: it is 30 wide whenever 0 <= current <= total,
    consists of dashes only when the total is not positive, and is full
    exactly when current = total. *)
Theorem progress_bar_width (current total : Z) :
  Z.of_nat (String.length (progress_bar current total))
  = Z.max 30 (Z.max (progress_filled current total)
                    (30 - progress_filled current total)) /\
  (0 <= current <= total ->
   String.length (progress_bar current total) = 30%nat) /\
  (total <= 0 -> progress_bar current total = repeat_char "-" 30) /\
  (0 <= current <= total -> 0 < total ->
   (progress_bar current total = repeat_char "=" 30 <-> current = total)).
Proof.
  assert (Hlen : Z.of_nat (String.length (progress_bar current total))
                 = Z.max 30 (Z.max (progress_filled current total)
                                   (30 - progress_filled current total))).
  { unfold progress_bar, py_repeat, bar_length.
    rewrite length_append, !length_repeat_char. lia. }
  assert (Hfilled : 0 <= current <= total ->
                    0 <= progress_filled current total <= 30).
  { intros Hc. unfold progress_filled, bar_length.
    destruct (Z.ltb_spec 0 total); [|lia]. split.
    - apply Z.div_pos; lia.
    - apply Z.div_le_upper_bound; lia. }
  split; [exact Hlen|]. split; [|split].
  - intros Hc. specialize (Hfilled Hc). lia.
  - intros Ht. unfold progress_bar, progress_filled.
    destruct (Z.ltb_spec 0 total); [lia|]. reflexivity.
  - intros Hc Ht. specialize (Hfilled Hc).
    assert (Hfull : progress_filled current total = 30 <-> current = total).
    { unfold progress_filled, bar_length in *.
      destruct (Z.ltb_spec 0 total); [|lia]. split.
      - intros H30.
        assert (30 * current / total * total <= 30 * current)
          by (rewrite Z.mul_comm; apply Z.mul_div_le; lia).
        nia.
      - intros ->. rewrite Z.div_mul by lia. done. }
    rewrite <- Hfull. unfold progress_bar, py_repeat, bar_length. split.
    + intros Hbar.
      destruct (decide (progress_filled current total = 30)) as [|Hne];
        [done|].
      exfalso.
      assert (Hd : exists k, Z.to_nat (30 - progress_filled current total)
                             = S k).
      { exists (Z.to_nat (30 - progress_filled current total) - 1)%nat. lia. }
      destruct Hd as [k Hk]. rewrite Hk in Hbar.
      assert (Hchar : forall (n : nat) s t (a b : ascii) (m : nat),
                a <> b ->
                repeat_char a n +:+ String b s = repeat_char a m +:+ t ->
                (n < m)%nat -> False).
      { clear. intros n. induction n as [|n IH]; intros s t a b m Hab H Hlt.
        - destruct m; [lia|]. simpl in H. rewrite append_nil_l in H.
          rewrite append_cons in H. by simplify_eq.
        - destruct m; [lia|]. simpl in H. rewrite !append_cons in H.
          simplify_eq. eapply IH; [done | done | lia]. }
      simpl repeat_char in Hbar at 2.
      rewrite <- (append_nil_r (repeat_char "=" 30)) in Hbar.
      eapply (Hchar _ _ _ "="%char "-"%char 30%nat); [done | exact Hbar | lia].
    + intros ->. simpl. by rewrite append_nil_r.
Qed.

Lemma progress_bar_width_witness :
  String.length (progress_bar 1 3) = 30%nat /\
  progress_bar 5 0 = repeat_char "-" 30 /\
  (progress_bar 3 3 = repeat_char "=" 30 <-> 3 = 3).
Proof.
  split; [|split].
  - apply (proj1 (proj2 (progress_bar_width 1 3))). lia.
  - apply (proj1 (proj2 (proj2 (progress_bar_width 5 0)))). lia.
  - apply (proj2 (proj2 (proj2 (progress_bar_width 3 3)))); lia.
Defined.

End GeneratorProperties.

(* ===================================================================== *)
(** ** Further facts about the loop *)
(* ===================================================================== *)

Module RunFacts.
Import Text TextFacts PurePath PurePathFacts FileSys Renamer GeneratorFacts Cli.
Import LoopFacts Properties Posix Examples NumberFacts NameFacts.
Import GeneratorProperties.

Section WithRuntime.
Context `{RT : Runtime}.
Implicit Types (r : Rule) (st : LoopState) (f : Path) (fs : gmap Path Node).

(** What one iteration adds: at most one entry, for its own file; a
    warning only together with an entry and only in execute mode; a
    change of the file system only at the file and at the new path of the
    entry. *)
Lemma loop_body_effects r execute st f st' :
  loop_body r execute st f = Ok st' ->
  exists (new : list (Path * Path)) (ws : list string),
    renames st' = renames st ++ new /\
    warnings st' = warnings st ++ ws /\
    map fst new `sublist_of` [f] /\
    (length ws <= length new)%nat /\
    (execute = false -> ws = []) /\
    (forall g, g <> f -> g ∉ map snd new ->
               disk st' !! g = disk st !! g).
Proof.
  intros H. apply loop_body_outcome in H.
  destruct H as [nm ? ?|nm ? ? ?|nm ? ? ? ?|nm fs' ? ? ? Hex Hren].
  - exists [], []. rewrite advance_renames, advance_warnings, advance_disk,
      !app_nil_r. repeat split; try done. by apply sublist_cons.
  - exists [(f, target f nm)], [].
    rewrite advance_renames, advance_warnings, advance_disk, !app_nil_r.
    repeat split; try done. simpl. lia.
  - exists [(f, target f nm)], [warning_text f nm]. simpl.
    repeat split; try done. intros ->. done.
  - exists [(f, target f nm)], [].
    rewrite advance_renames, advance_warnings, advance_disk, !app_nil_r.
    simpl. repeat split; try done; [lia|].
    intros g Hgf Hgd. apply rename_Ok in Hren as (n & _ & ->).
    rewrite lookup_insert_ne, lookup_delete_ne; [done | done |].
    intros <-. apply Hgd. set_solver.
Qed.

Lemma run_loop_effects r execute st files st' :
  run_loop r execute st files = Ok st' ->
  exists (new : list (Path * Path)) (ws : list string),
    renames st' = renames st ++ new /\
    warnings st' = warnings st ++ ws /\
    map fst new `sublist_of` files /\
    (length ws <= length new)%nat /\
    (execute = false -> ws = []) /\
    (forall g, g ∉ files -> g ∉ map snd new ->
               disk st' !! g = disk st !! g).
Proof.
  revert st. induction files as [|f rest IH]; intros st H.
  - simpl in H. simplify_eq. exists [], []. rewrite !app_nil_r.
    repeat split; try done.
  - apply run_loop_cons in H as (st1 & H1 & H2).
    apply IH in H2 as (new2 & ws2 & Hr2 & Hw2 & Hsub2 & Hlen2 & Hdry2 & Hfr2).
    apply loop_body_effects in H1
      as (new1 & ws1 & Hr1 & Hw1 & Hsub1 & Hlen1 & Hdry1 & Hfr1).
    exists (new1 ++ new2), (ws1 ++ ws2).
    rewrite Hr2, Hw2, Hr1, Hw1, <- !app_assoc.
    repeat split; try done.
    + rewrite map_app. change (f :: rest) with ([f] ++ rest).
      by apply sublist_app.
    + rewrite !length_app. lia.
    + intros He. by rewrite (Hdry1 He), (Hdry2 He).
    + intros g Hg Hdest. apply not_elem_of_cons in Hg as [Hgf Hrest].
      rewrite map_app in Hdest. apply not_elem_of_app in Hdest as [Hd1 Hd2].
      rewrite (Hfr2 g Hrest Hd2). by apply Hfr1.
Qed.

End WithRuntime.
End RunFacts.

(* ===================================================================== *)
(** ** Further properties of rename_files *)
(* ===================================================================== *)

Module RunProperties.
Import Text TextFacts PurePath PurePathFacts FileSys Renamer GeneratorFacts Cli.
Import LoopFacts Properties Posix Examples NumberFacts NameFacts.
Import GeneratorProperties RunFacts.

Lemma collect_files_Ok `{RT : Runtime} (fs : gmap Path Node)
    (root_path : Path) (pattern : string) (recursive : bool)
    (files : list Path) :
  collect_files fs root_path pattern recursive = Ok files ->
  exists listing,
    (if recursive then rglob fs root_path pattern
     else glob fs root_path pattern) = Ok listing /\
    files = merge_sort path_le (filter (fun f => is_file fs f = true) listing).
Proof.
  unfold collect_files. intros H. apply bind_Ok in H as (listing & Hl & H).
  exists listing. split; [done|]. by simplify_eq.
Qed.

Lemma is_file_exists (fs : gmap Path Node) (f : Path) :
  is_file fs f = true -> path_exists fs f = true.
Proof.
  unfold is_file, path_exists. intros H. apply bool_decide_eq_true in H.
  apply bool_decide_eq_true. rewrite H. by eexists.
Qed.

Lemma collected_files_exist `{RT : Runtime} (fs : gmap Path Node)
    (root_path : Path) (pattern : string) (recursive : bool)
    (files : list Path) :
  collect_files fs root_path pattern recursive = Ok files ->
  forall f, f ∈ files -> is_file fs f = true.
Proof.
  intros H f Hf. apply collect_files_Ok in H as (listing & _ & ->).
  rewrite merge_sort_Permutation in Hf.
  by apply list_elem_of_filter in Hf as [? _].
Qed.

(** X8.  What [collect_files] returns is taken from the listing of the
    glob: it has no more paths than the glob lists, every one of them a
    regular file that exists (links followed), and none twice when the
    glob lists none twice; and an exception of the glob leaves
    [collect_files] with the same exception. *)
Theorem collect_files_keeps_listing `{RT : Runtime}
    (fs : gmap Path Node) (root_path : Path) (pattern : string)
    (recursive : bool) :
  (forall e,
      (if recursive then rglob fs root_path pattern
       else glob fs root_path pattern) = Raise e ->
      collect_files fs root_path pattern recursive = Raise e) /\
  (forall files,
      collect_files fs root_path pattern recursive = Ok files ->
      exists listing,
        (if recursive then rglob fs root_path pattern
         else glob fs root_path pattern) = Ok listing /\
        (length files <= length listing)%nat /\
        (forall f, f ∈ files -> is_file fs f = true /\
                                path_exists fs f = true) /\
        (NoDup listing -> NoDup files)).
Proof.
  split.
  - intros e He. unfold collect_files. by rewrite He.
  - intros files H. apply collect_files_Ok in H as (listing & Hl & ->).
    exists listing. split; [done|]. split; [|split].
    + rewrite merge_sort_Permutation. apply length_filter.
    + intros f Hf. rewrite merge_sort_Permutation in Hf.
      apply list_elem_of_filter in Hf as [Hfile _].
      split; [done | by apply is_file_exists].
    + intros Hnd. rewrite merge_sort_Permutation. by apply NoDup_filter.
Qed.

Lemma collect_files_keeps_listing_witness :
  exists listing,
    rglob (Runtime := rt) tree_nested r_dir "*" = Ok listing /\
    (length [of_string "/r/a/x"; a_txt] <= length listing)%nat /\
    (forall f, f ∈ [of_string "/r/a/x"; a_txt] ->
               is_file tree_nested f = true /\
               path_exists tree_nested f = true) /\
    (NoDup listing -> NoDup [of_string "/r/a/x"; a_txt]).
Proof.
  apply (proj2 (collect_files_keeps_listing (RT := rt) tree_nested r_dir
                  "*" true) [of_string "/r/a/x"; a_txt]).
  by vm_compute.
Defined.

(** X9.  The list [rename_files] returns follows the collection: the
    files of its entries are, in order, a selection of the collected
    files, so there are at most as many entries as files and no file has
    two entries when it was collected once; and there are at most as many
    warnings as entries, none at all in a dry run. *)
Theorem plan_follows_collection `{RT : Runtime}
    (fs : gmap Path Node) (root_path : Path) (r : Rule) (execute : bool)
    (files : list Path) (st' : LoopState) :
  collect_files fs root_path (file_pattern r) (recursive r) = Ok files ->
  rename_files_run fs root_path r execute = Ok st' ->
  map fst (renames st') `sublist_of` files /\
  (length (renames st') <= length files)%nat /\
  (NoDup files -> NoDup (map fst (renames st'))) /\
  (length (warnings st') <= length (renames st'))%nat /\
  (execute = false -> warnings st' = []).
Proof.
  intros Hfiles Hrun. unfold rename_files_run in Hrun.
  rewrite Hfiles in Hrun. simpl in Hrun.
  apply run_loop_effects in Hrun
    as (new & ws & Hr & Hw & Hsub & Hlen & Hdry & _).
  simpl in Hr, Hw. rewrite Hr, Hw.
  repeat split; try done.
  - apply sublist_length in Hsub. by rewrite length_map in Hsub.
  - intros Hnd. by eapply sublist_NoDup.
Qed.

Lemma plan_follows_collection_witness :
  map fst (renames (state_after tree_numbered rule_no_match true))
    `sublist_of` [a_txt; a_001_txt] /\
  (length (renames (state_after tree_numbered rule_append_number true))
   <= 2)%nat.
Proof.
  split.
  - apply (plan_follows_collection (RT := rt) tree_numbered r_dir
             rule_no_match true [a_txt; a_001_txt]
             (state_after tree_numbered rule_no_match true));
      by vm_compute.
  - apply (proj1 (proj2 (plan_follows_collection (RT := rt) tree_numbered
             r_dir rule_append_number true [a_txt; a_001_txt]
             (state_after tree_numbered rule_append_number true)
             ltac:(by vm_compute) ltac:(by vm_compute)))).
Defined.

(** X13.  The counter after a run: without numbering it stays at the
    start value; with numbering it is the start value plus the number of
    collected files minus the number of warnings, so plus the number of
    files in a dry run, and never more than that. *)
Theorem counter_law `{RT : Runtime}
    (fs : gmap Path Node) (root_path : Path) (r : Rule) (execute : bool)
    (files : list Path) (st' : LoopState) :
  collect_files fs root_path (file_pattern r) (recursive r) = Ok files ->
  rename_files_run fs root_path r execute = Ok st' ->
  (numbering r = false -> counter st' = number_start r) /\
  (numbering r = true ->
   counter st' = number_start r + Z.of_nat (length files)
                 - Z.of_nat (length (warnings st')) /\
   number_start r <= counter st' <= number_start r + Z.of_nat (length files) /\
   (execute = false ->
    counter st' = number_start r + Z.of_nat (length files))).
Proof.
  intros Hfiles Hrun.
  unfold rename_files_run in Hrun. rewrite Hfiles in Hrun. simpl in Hrun.
  destruct (run_loop_effects _ _ _ _ _ Hrun)
    as (new & ws & Hr & Hw & Hsub & Hwlen & Hdry & _).
  simpl in Hw. apply sublist_length in Hsub. rewrite length_map in Hsub.
  assert (Hlen : (length (warnings st') <= length files)%nat)
    by (rewrite Hw; lia).
  assert (Hdry' : execute = false -> warnings st' = [])
    by (intros He; by rewrite Hw, (Hdry He)).
  clear Hr Hw Hsub Hwlen Hdry new ws.
  split.
  - intros Hnum. clear -Hrun Hnum.
    assert (Hgen : forall l st, run_loop r execute st l = Ok st' ->
                                counter st' = counter st).
    { induction l as [|f l IH]; intros st H.
      - simpl in H. by simplify_eq.
      - apply run_loop_cons in H as (st1 & H1 & H2). rewrite (IH _ H2).
        apply loop_body_counter in H1 as [[_ ->] | (_ & -> & _)]; [|done].
        unfold counter_after. by rewrite Hnum. }
    by rewrite (Hgen _ _ Hrun).
  - intros Hnum.
    pose proof (run_loop_counter_law r execute _ _ _ Hnum Hrun) as Hlaw.
    simpl in Hlaw. repeat split; try lia.
    intros He. rewrite (Hdry' He) in Hlaw. simpl in Hlaw. lia.
Qed.

Lemma counter_law_witness :
  counter (state_after tree_numbered rule_append_number true)
  = 1 + Z.of_nat (length [a_txt; a_001_txt])
    - Z.of_nat (length (warnings (state_after tree_numbered
                                    rule_append_number true))).
Proof.
  apply (proj2 (counter_law (RT := rt) tree_numbered r_dir
                  rule_append_number true [a_txt; a_001_txt]
                  (state_after tree_numbered rule_append_number true)
                  ltac:(by vm_compute) ltac:(by vm_compute))).
  reflexivity.
Defined.



End RunProperties.

(* ===================================================================== *)
(** ** Properties of main *)
(* ===================================================================== *)

Module CliProperties.
Import Text TextFacts PurePath PurePathFacts FileSys Renamer GeneratorFacts Cli.
Import LoopFacts Properties Posix Examples NumberFacts NameFacts.
Import GeneratorProperties RunFacts RunProperties CliExamples.

Section WithConsole.
Variable format_percent : Z -> Z -> string.
Context `{RT : Runtime}.

(** The loop with output is the loop, with one progress text for each
    file, numbered from [i] on. *)
Lemma run_loop_io_spec (r : Rule) (execute : bool) (total : Z)
    (files : list Path) :
  forall (i : Z) (st : LoopState) (out : list string),
    run_loop_io format_percent r execute total i st out files
    = (try st' <- run_loop r execute st files in
       Ok (st', out ++ map (fun k : nat =>
                              print_progress format_percent
                                (i + Z.of_nat k) total "Processing")
                           (seq 0 (length files)))).
Proof.
  induction files as [|f rest IH]; intros i st out.
  - simpl. by rewrite app_nil_r.
  - simpl. destruct (loop_body r execute st f) as [st1|e]; simpl; [|done].
    rewrite IH. destruct (run_loop r execute st1 rest) as [st'|e]; simpl;
      [|done].
    f_equal. f_equal. rewrite <- app_assoc. f_equal. simpl. f_equal.
    + f_equal. lia.
    + rewrite <- seq_shift, map_map. apply map_ext. intros k.
      f_equal. lia.
Qed.

Lemma rename_files_io_spec (fs : gmap Path Node) (root_path : Path)
    (r : Rule) (execute : bool) :
  rename_files_io format_percent fs root_path r execute
  = (try files <- collect_files fs root_path (file_pattern r) (recursive r) in
     try st <- run_loop r execute (initial_state r fs) files in
     Ok (st,
         ["Scanning for files...";
          print_line (" found " +:+ str_of_int (Z.of_nat (length files))
                      +:+ " file(s)")]
         ++ map (fun k : nat =>
                   print_progress format_percent (1 + Z.of_nat k)
                     (Z.of_nat (length files)) "Processing")
                (seq 0 (length files))
         ++ [clear_progress]
         ++ map (fun warning => print_line ("WARNING: " +:+ warning))
                (warnings st))).
Proof.
  unfold rename_files_io.
  destruct (collect_files fs root_path (file_pattern r) (recursive r))
    as [files|e]; simpl; [|done].
  rewrite run_loop_io_spec.
  destruct (run_loop r execute (initial_state r fs) files) as [st|e]; simpl;
    [|done].
  reflexivity.
Qed.

End WithConsole.

Lemma pair_check (s r : option string) :
  Bool.eqb (is_None s) (is_None r) = false <->
  (s = None /\ r <> None) \/ (s <> None /\ r = None).
Proof.
  destruct s, r; simpl; split; try done; intros H;
    try (by left); try (by right);
    destruct H as [[? ?]|[? ?]]; done.
Qed.

Lemma truthy_false (s : string) : truthy s = false <-> s = "".
Proof.
  unfold truthy. rewrite negb_false_iff, bool_decide_eq_true. done.
Qed.

Lemma truthy_opt_false (o : option string) :
  truthy_opt o = false <-> o = None \/ o = Some "".
Proof.
  destruct o as [s|]; simpl.
  - rewrite truthy_false. split; [intros ->; by right|].
    intros [?| [= ->]]; done.
  - split; [by left | done].
Qed.

Lemma option_check (p sf : string) (s d : option string) (num : bool) :
  truthy p || truthy sf || truthy_opt s || num || truthy_opt d = false <->
  p = "" /\ sf = "" /\ (s = None \/ s = Some "") /\ num = false /\
  (d = None \/ d = Some "").
Proof.
  rewrite !orb_false_iff, !truthy_false, !truthy_opt_false. tauto.
Qed.

(** From the parsed arguments on, [main] ends with [sys.exit] only with
    status 1 and one line of text, before anything is scanned or renamed,
    and it does so exactly when the path does not exist, or is not a
    directory, or only one of search and replace is given, or none of
    prefix, suffix, search, number and date is set. *)
Lemma main_validation `{RT : Runtime}
    (format_percent : Z -> Z -> string)
    (fs : gmap Path Node) (args : Args) :
  (forall code out,
      main format_percent fs args = SysExit code out ->
      code = 1 /\ length out = 1%nat) /\
  ((exists out, main format_percent fs args = SysExit 1 out) <->
   path_exists fs (of_string (arg_path args)) = false \/
   is_dir fs (of_string (arg_path args)) = false \/
   (arg_search args = None /\ arg_replace args <> None) \/
   (arg_search args <> None /\ arg_replace args = None) \/
   (arg_prefix args = "" /\ arg_suffix args = "" /\
    (arg_search args = None \/ arg_search args = Some "") /\
    arg_number args = false /\
    (arg_date args = None \/ arg_date args = Some ""))).
Proof.
  pose proof (pair_check (arg_search args) (arg_replace args)) as Hpair.
  pose proof (option_check (arg_prefix args) (arg_suffix args)
                (arg_search args) (arg_date args) (arg_number args)) as Hopt.
  unfold main.
  destruct (path_exists fs (of_string (arg_path args))) eqn:Hex; simpl.
  2: { split; [by intros ?? [= <- <-] | ]. split; [by left | by eexists]. }
  destruct (is_dir fs (of_string (arg_path args))) eqn:Hdir; simpl.
  2: { split; [by intros ?? [= <- <-] | ].
       split; [by right; left | by eexists]. }
  destruct (Bool.eqb (is_None (arg_search args)) (is_None (arg_replace args)))
    eqn:Hb3; simpl.
  2: { split; [by intros ?? [= <- <-] | ]. split; [|by eexists].
       intros _. right. right.
       destruct (proj1 Hpair eq_refl) as [?|?]; [by left | by right; left]. }
  destruct (truthy (arg_prefix args) || truthy (arg_suffix args)
            || truthy_opt (arg_search args) || arg_number args
            || truthy_opt (arg_date args)) eqn:Hb4; simpl.
  2: { split; [by intros ?? [= <- <-] | ]. split; [|by eexists].
       intros _. do 4 right. by apply Hopt. }
  assert (Hno : forall code out,
            match rename_files_io format_percent fs
                    (of_string (arg_path args)) (rule_of_args args)
                    (arg_execute args) with
            | Ok (st, out0) =>
                Returned (out0 ++ map print_line
                            (report (of_string (arg_path args))
                               (arg_execute args) (renames st))) (disk st)
            | Raise e => Uncaught e
            end <> SysExit code out).
  { intros code out.
    by destruct (rename_files_io _ _ _ _ _) as [[st out0]|e]. }
  split.
  - intros code out H. by apply Hno in H.
  - split.
    + intros [out H]. by apply Hno in H.
    + intros [?|[?|[H|[H|H]]]]; try done.
      * assert (true = false) by (apply Hpair; by left). done.
      * assert (true = false) by (apply Hpair; by right). done.
      * assert (true = false) by (by apply Hopt). done.
Qed.

(** X17.  Without [--execute], [main] changes nothing: whenever it
    returns, the file system is the one it started with. *)
Theorem main_without_execute_keeps_files `{RT : Runtime}
    (format_percent : Z -> Z -> string)
    (fs fs' : gmap Path Node) (args : Args) (out : list string) :
  main format_percent fs args = Returned out fs' ->
  arg_execute args = false ->
  fs' = fs.
Proof.
  unfold main. intros H Hdry.
  repeat (match type of H with
          | (if ?b then _ else _) = _ => destruct b; [done|]
          end).
  rewrite rename_files_io_spec, Hdry in H.
  destruct (collect_files _ _ _ _) as [files|e]; [|done]. simpl in H.
  destruct (run_loop _ false _ files) as [st|e] eqn:Hrun; [|done].
  simpl in H. simplify_eq.
  by destruct (run_loop_dry_frame _ _ _ _ Hrun) as (-> & _).
Qed.

(** X18.  What [main] prints when it returns: the two texts of the scan
    with the number of collected files, one progress text for each file
    with its position from 1 on and the number of files, the text that
    clears the progress line, one warning line for each warning of the
    run, and then the report on the list [rename_files] returned; the
    file system it leaves is the one [rename_files] leaves. *)
Theorem main_output `{RT : Runtime}
    (format_percent : Z -> Z -> string)
    (fs fs' : gmap Path Node) (args : Args) (out : list string) :
  main format_percent fs args = Returned out fs' ->
  exists files st,
    collect_files fs (of_string (arg_path args)) (arg_pattern args)
      (negb (arg_no_recursive args)) = Ok files /\
    rename_files_run fs (of_string (arg_path args)) (rule_of_args args)
      (arg_execute args) = Ok st /\
    fs' = disk st /\
    out = ["Scanning for files...";
           print_line (" found " +:+ str_of_int (Z.of_nat (length files))
                       +:+ " file(s)")]
          ++ map (fun k : nat =>
                    print_progress format_percent (1 + Z.of_nat k)
                      (Z.of_nat (length files)) "Processing")
                 (seq 0 (length files))
          ++ [clear_progress]
          ++ map (fun warning => print_line ("WARNING: " +:+ warning))
                 (warnings st)
          ++ map print_line
               (report (of_string (arg_path args)) (arg_execute args)
                       (renames st)).
Proof.
  unfold main. intros H.
  repeat (match type of H with
          | (if ?b then _ else _) = _ => destruct b; [done|]
          end).
  rewrite rename_files_io_spec in H. unfold rename_files_run.
  change (file_pattern (rule_of_args args)) with (arg_pattern args) in *.
  change (recursive (rule_of_args args))
    with (negb (arg_no_recursive args)) in *.
  destruct (collect_files _ _ _ _) as [files|e]; [|done]. simpl in H.
  destruct (run_loop _ _ _ files) as [st|e] eqn:Hrun; [|done].
  simpl in H. simplify_eq. exists files, st.
  repeat split; try done. by rewrite <- !app_assoc.
Qed.

Lemma main_without_execute_keeps_files_witness :
  main_fs ∅ (main (RT := rt) rounded_percent tree_numbered args_preview)
  = tree_numbered.
Proof.
  apply (main_without_execute_keeps_files (RT := rt) rounded_percent
           tree_numbered _ args_preview
           (main_out (main (RT := rt) rounded_percent tree_numbered
                        args_preview))).
  - by vm_compute.
  - reflexivity.
Defined.

Lemma main_output_witness :
  exists files st,
    collect_files (RT := rt) tree_numbered (of_string "/r") "*" true
      = Ok files /\
    rename_files_run (RT := rt) tree_numbered (of_string "/r")
      (rule_of_args args_numbered) true = Ok st /\
    main_fs ∅ (main (RT := rt) rounded_percent tree_numbered args_numbered)
      = disk st /\
    main_out (main (RT := rt) rounded_percent tree_numbered args_numbered)
    = ["Scanning for files...";
       print_line (" found " +:+ str_of_int (Z.of_nat (length files))
                   +:+ " file(s)")]
      ++ map (fun k : nat =>
                print_progress rounded_percent (1 + Z.of_nat k)
                  (Z.of_nat (length files)) "Processing")
             (seq 0 (length files))
      ++ [clear_progress]
      ++ map (fun warning => print_line ("WARNING: " +:+ warning))
             (warnings st)
      ++ map print_line (report (of_string "/r") true (renames st)).
Proof.
  apply (main_output (RT := rt) rounded_percent tree_numbered
           (main_fs ∅ (main (RT := rt) rounded_percent tree_numbered
                         args_numbered))
           args_numbered
           (main_out (main (RT := rt) rounded_percent tree_numbered
                        args_numbered))).
  by vm_compute.
Defined.

End CliProperties.

(* ===================================================================== *)
(** ** A conflict under sequential numbering *)
(* ===================================================================== *)

Module StuckCounter.
Import Text TextFacts PurePath PurePathFacts FileSys Renamer GeneratorFacts Cli.
Import LoopFacts Properties Posix Examples NumberFacts NameFacts.
Import GeneratorProperties RunFacts RunProperties CliExamples.



End StuckCounter.

(* ===================================================================== *)
(** ** The padded number within the limits of the interpreter *)
(* ===================================================================== *)

Module PaddingProperties.
Import Text TextFacts PurePath PurePathFacts FileSys Renamer GeneratorFacts.
Import Checked Posix Examples.

Section WithInterpreter.
Variable int_max_str_digits : option Z.
Variable max_str_len : Z.
Context `{RT : Runtime}.

Lemma alloc_Ok (s s' : string) :
  alloc max_str_len s = Ok s' ->
  s' = s /\ Z.of_nat (String.length s) <= max_str_len.
Proof.
  unfold alloc. destruct (Z.leb_spec (Z.of_nat (String.length s)) max_str_len);
    [|done].
  intros [= <-]. done.
Qed.

Lemma alloc_fits (s : string) :
  Z.of_nat (String.length s) <= max_str_len -> alloc max_str_len s = Ok s.
Proof.
  intros H. unfold alloc.
  by destruct (Z.leb_spec (Z.of_nat (String.length s)) max_str_len); [|lia].
Qed.

Lemma num_str_cases (n w : Z) :
  num_str int_max_str_digits max_str_len n w
  = (if exceeds_str_digits int_max_str_digits n then Raise ValueError
     else if max_str_len <? Z.of_nat (String.length (str_of_int n))
     then Raise MemoryError
     else if negb (fits_ssize_t w) then Raise OverflowError
     else if w <=? Z.of_nat (String.length (str_of_int n))
     then Ok (str_of_int n)
     else if max_str_len <? w then Raise MemoryError
     else Ok (zfill (str_of_int n) w)).
Proof.
  unfold num_str, str_checked.
  destruct (exceeds_str_digits int_max_str_digits n); [done|].
  unfold alloc at 1.
  destruct (Z.leb_spec (Z.of_nat (String.length (str_of_int n))) max_str_len)
    as [Hd|Hd];
    destruct (Z.ltb_spec max_str_len (Z.of_nat (String.length (str_of_int n))));
    try lia; simpl; [|done].
  unfold zfill_checked.
  destruct (fits_ssize_t w); simpl; [|done].
  destruct (Z.leb_spec w (Z.of_nat (String.length (str_of_int n)))) as [Hw|Hw];
    [done|].
  unfold alloc. rewrite length_zfill.
  destruct (Z.leb_spec (Z.max (Z.of_nat (String.length (str_of_int n))) w)
              max_str_len);
    destruct (Z.ltb_spec max_str_len w); try lia; done.
Qed.

Lemma num_str_Ok (n w : Z) (num : string) :
  num_str int_max_str_digits max_str_len n w = Ok num ->
  num = zfill (str_of_int n) w /\
  Z.of_nat (String.length num) <= max_str_len.
Proof.
  rewrite num_str_cases.
  destruct (exceeds_str_digits int_max_str_digits n); [done|].
  destruct (Z.ltb_spec max_str_len (Z.of_nat (String.length (str_of_int n))));
    [done|].
  destruct (fits_ssize_t w); simpl; [|done].
  destruct (Z.leb_spec w (Z.of_nat (String.length (str_of_int n)))) as [Hw|Hw].
  - intros [= <-]. by rewrite zfill_short.
  - destruct (Z.ltb_spec max_str_len w); [done|]. intros [= <-].
    split; [done|]. rewrite length_zfill. lia.
Qed.

End WithInterpreter.




End PaddingProperties.

(* ===================================================================== *)
(** ** The exit status of main *)
(* ===================================================================== *)

Module ArgvProperties.
Import Text TextFacts PurePath PurePathFacts FileSys Renamer Cli Argv.
Import Posix Examples CliExamples CliProperties.



End ArgvProperties.
